(** * proxxy: an authenticated WebSocket relay for Proxmox VE consoles

    A shallow embedding of [src/index.ts] and [src/utils.ts] (and of the
    payload encoder of [examples/typescript-proxmox-api.ts]), with the
    properties of the relay protocol stated and proved over it.

    Conventions.
    - A JavaScript exception is a value of [exn]; a function that may throw
      returns [result].
    - Wire text (hex, header values, URL parts) is a [string]; the plaintext
      handled by the text codec is a sequence of UTF-16 code units ([utf16]),
      because [TextEncoder]/[TextDecoder] are sensitive to them.
    - Connection objects are identified by numbers; the handlers of
      [Bun.serve] are functions on an explicit server state that return the
      calls they make on those objects.
    - What the platform computes and the repository does not ([crypto.subtle],
      [JSON.parse], zod's hostname pattern, the host parser of [URL]) is a
      variable of the section [Proxxy]. *)

From Stdlib Require Import ZArith QArith Lia.
From Stdlib Require Import Strings.Byte Strings.Ascii Strings.String.
From stdpp Require Import gmap strings list fin_maps pretty.

Local Open Scope string_scope.
Local Open Scope list_scope.
Local Open Scope Z_scope.

(** ** Exceptions *)

(** One entry of [ZodError.issues]: the failing field and zod's issue code. *)
Inductive issue_code :=
  | invalid_type | too_small | too_big | invalid_value | invalid_format | invalid_union.

Record issue := Issue { issue_path : list string; issue_kind : issue_code }.

Inductive exn :=
  | Error (message : string)      (* [new Error(message)] *)
  | SyntaxError                   (* [JSON.parse] *)
  | DataError                     (* [crypto.subtle.importKey] *)
  | OperationError                (* [crypto.subtle.decrypt] *)
  | TypeError                     (* [new URL] *)
  | ZodError (issues : list issue).

Inductive result (A : Type) :=
  | Ok (a : A)
  | Throw (e : exn).
Arguments Ok {A} a.
Arguments Throw {A} e.

Definition bind {A B} (r : result A) (k : A → result B) : result B :=
  match r with
  | Ok a => k a
  | Throw e => Throw e
  end.

Notation "'let*' x := r 'in' k" := (bind r (fun x => k))
  (at level 10, x name, r at level 100, k at level 200).

(** ** Buffers and their hex encoding *)

Abbreviation bytes := (list byte).

Definition byte_to_Z (b : byte) : Z := Z.of_N (Byte.to_N b).

Definition byte_of_Z (z : Z) : byte :=
  default x00 (Byte.of_N (Z.to_N (z mod 256))).

Definition hex_digit (n : N) : ascii :=
  match n with
  | 0 => "0" | 1 => "1" | 2 => "2" | 3 => "3" | 4 => "4" | 5 => "5" | 6 => "6"
  | 7 => "7" | 8 => "8" | 9 => "9" | 10 => "a" | 11 => "b" | 12 => "c"
  | 13 => "d" | 14 => "e" | _ => "f"
  end%N%char.

Definition hex_value (c : ascii) : option N :=
  let n := N_of_ascii c in
  if (48 <=? n)%N && (n <=? 57)%N then Some (n - 48)%N
  else if (97 <=? n)%N && (n <=? 102)%N then Some (n - 87)%N
  else if (65 <=? n)%N && (n <=? 70)%N then Some (n - 55)%N
  else None.

(** [Buffer.from(bytes).toString("hex")]: two lower-case digits per byte. *)
Fixpoint toString_hex (b : bytes) : string :=
  match b with
  | [] => ""
  | x :: r =>
      String (hex_digit (Byte.to_N x / 16)) (String (hex_digit (Byte.to_N x mod 16)) (toString_hex r))
  end.

(** [Buffer.from(s, "hex")]: decodes pairs of hex digits and stops at the
    first pair that is not hexadecimal; a trailing single digit is dropped. *)
Fixpoint Buffer_from_hex (s : string) : bytes :=
  match s with
  | String c1 (String c2 r) =>
      match hex_value c1, hex_value c2 with
      | Some h, Some l => default x00 (Byte.of_N (16 * h + l)) :: Buffer_from_hex r
      | _, _ => []
      end
  | _ => []
  end.

(** ** [String.prototype.split] with a one-character separator *)

Fixpoint split (sep : ascii) (s : string) : list string :=
  match s with
  | "" => [""]
  | String c r =>
      if Ascii.eqb c sep then "" :: split sep r
      else match split sep r with
           | p :: ps => String c p :: ps
           | [] => [String c ""]
           end
  end.

(** The wire string cut at its first [":"], as the specification words the
    decoder: [None] when there is no separator. *)
Fixpoint halves (s : string) : option (string * string) :=
  match s with
  | "" => None
  | String c r =>
      if Ascii.eqb c ":" then Some ("", r)
      else match halves r with
           | Some (a, b) => Some (String c a, b)
           | None => None
           end
  end.

(** In the words of the specification, a wire string is malformed when the
    separator or either half is missing. *)
Definition malformed (payload : string) : bool :=
  match halves payload with
  | None => true
  | Some (a, b) => String.eqb a "" || String.eqb b ""
  end.

(** JavaScript truthiness of an optional string: [undefined] and [""] are falsy. *)
Definition truthy (s : option string) : bool :=
  match s with
  | Some (String _ _) => true
  | _ => false
  end.

(** ** The text codec: [TextEncoder] and [TextDecoder] (UTF-8) *)

(** A JavaScript string is a sequence of UTF-16 code units. *)
Abbreviation utf16 := (list Z).

Definition is_high_surrogate (u : Z) : bool := (0xD800 <=? u) && (u <=? 0xDBFF).
Definition is_low_surrogate (u : Z) : bool := (0xDC00 <=? u) && (u <=? 0xDFFF).

(** Conversion of a string to scalar values: a surrogate pair is one code
    point, an unpaired surrogate becomes U+FFFD. *)
Fixpoint scalar_values (s : utf16) : list Z :=
  match s with
  | [] => []
  | u :: r =>
      if is_high_surrogate u then
        match r with
        | l :: r' =>
            if is_low_surrogate l
            then 0x10000 + (u - 0xD800) * 0x400 + (l - 0xDC00) :: scalar_values r'
            else 0xFFFD :: scalar_values r
        | [] => [0xFFFD]
        end
      else if is_low_surrogate u then 0xFFFD :: scalar_values r
      else u :: scalar_values r
  end.

(** The UTF-8 encoder; [c / 2^k] is [c >> k] and [c mod 64] is [c & 0x3F]. *)
Definition utf8_encode (c : Z) : list Z :=
  if c <? 0x80 then [c]
  else if c <? 0x800 then [0xC0 + c / 64; 0x80 + c mod 64]
  else if c <? 0x10000 then [0xE0 + c / 4096; 0x80 + (c / 64) mod 64; 0x80 + c mod 64]
  else [0xF0 + c / 262144; 0x80 + (c / 4096) mod 64; 0x80 + (c / 64) mod 64; 0x80 + c mod 64].

(** [new TextEncoder().encode(s)] *)
Definition TextEncoder_encode (s : utf16) : bytes :=
  byte_of_Z <$> (scalar_values s ≫= utf8_encode).

(** The UTF-8 decoder of the Encoding Standard, as a state machine. *)
Record utf8_state := Utf8State {
  code_point : Z;
  bytes_seen : Z;
  bytes_needed : Z;
  lower_boundary : Z;
  upper_boundary : Z
}.

Definition utf8_start : utf8_state := Utf8State 0 0 0 0x80 0xBF.

Inductive utf8_output :=
  | Continue
  | Emit (c : Z)
  | Invalid           (* emit U+FFFD *)
  | InvalidRestart.   (* emit U+FFFD and handle the byte again *)

Definition utf8_handler (st : utf8_state) (b : Z) : utf8_state * utf8_output :=
  if bytes_needed st =? 0 then
    if b <=? 0x7F then (utf8_start, Emit b)
    else if (0xC2 <=? b) && (b <=? 0xDF) then
      (Utf8State (b mod 32) 0 1 0x80 0xBF, Continue)
    else if (0xE0 <=? b) && (b <=? 0xEF) then
      (Utf8State (b mod 16) 0 2
         (if b =? 0xE0 then 0xA0 else 0x80) (if b =? 0xED then 0x9F else 0xBF), Continue)
    else if (0xF0 <=? b) && (b <=? 0xF4) then
      (Utf8State (b mod 8) 0 3
         (if b =? 0xF0 then 0x90 else 0x80) (if b =? 0xF4 then 0x8F else 0xBF), Continue)
    else (utf8_start, Invalid)
  else if negb ((lower_boundary st <=? b) && (b <=? upper_boundary st)) then
    (utf8_start, InvalidRestart)
  else
    let c := code_point st * 64 + b mod 64 in
    if bytes_seen st + 1 =? bytes_needed st then (utf8_start, Emit c)
    else (Utf8State c (bytes_seen st + 1) (bytes_needed st) 0x80 0xBF, Continue).

Fixpoint utf8_decode (st : utf8_state) (bs : list Z) : list Z :=
  match bs with
  | [] => if bytes_needed st =? 0 then [] else [0xFFFD]
  | b :: r =>
      match utf8_handler st b with
      | (st', Continue) => utf8_decode st' r
      | (st', Emit c) => c :: utf8_decode st' r
      | (st', Invalid) => 0xFFFD :: utf8_decode st' r
      | (_, InvalidRestart) =>
          0xFFFD ::
          match utf8_handler utf8_start b with
          | (st', Emit c) => c :: utf8_decode st' r
          | (st', Continue) => utf8_decode st' r
          | (st', _) => 0xFFFD :: utf8_decode st' r
          end
      end
  end.

(** A leading byte order mark is dropped ([ignoreBOM] is false by default). *)
Definition strip_BOM (bs : list Z) : list Z :=
  match bs with
  | b1 :: b2 :: b3 :: r =>
      if (b1 =? 0xEF) && (b2 =? 0xBB) && (b3 =? 0xBF) then r else bs
  | _ => bs
  end.

Definition code_units (c : Z) : utf16 :=
  if c <? 0x10000 then [c]
  else [0xD800 + (c - 0x10000) / 0x400; 0xDC00 + (c - 0x10000) mod 0x400].

(** [new TextDecoder().decode(buffer)] *)
Definition TextDecoder_decode (b : bytes) : utf16 :=
  utf8_decode utf8_start (strip_BOM (byte_to_Z <$> b)) ≫= code_units.

(** A Unicode scalar value: a code point that is not a surrogate. *)
Definition is_scalar (c : Z) : Prop :=
  0 <= c < 0x110000 ∧ ¬ (0xD800 <= c <= 0xDFFF).

(** Strings the codec can carry: every surrogate is paired. *)
Inductive well_formed : utf16 → Prop :=
  | wf_nil : well_formed []
  | wf_unit u s :
      0 <= u < 0x10000 → is_high_surrogate u = false → is_low_surrogate u = false →
      well_formed s → well_formed (u :: s)
  | wf_pair h l s :
      is_high_surrogate h = true → is_low_surrogate l = true →
      well_formed s → well_formed (h :: l :: s).

(** ** JSON values and the validated payload *)

(** A JavaScript number is modelled by its exact value. *)
#[warnings="-register-all"]
Inductive json :=
  | JNull
  | JBool (b : bool)
  | JNumber (n : Q)
  | JString (s : string)
  | JArray (items : list json)
  | JObject (members : list (string * json)).

(** [input[key]] on a parsed object; [None] is [undefined]. *)
Fixpoint property (key : string) (members : list (string * json)) : option json :=
  match members with
  | [] => None
  | (k, v) :: r => if String.eqb k key then Some v else property key r
  end.

Inductive guest_type := qemu | lxc.

Inductive port_value :=
  | PortString (s : string)
  | PortNumber (n : Q).

(** [WebSocketData], the type inferred from [websocketDataSchema]. *)
Record WebSocketData := {
  vmid : Z;
  type : guest_type;
  host : string;
  node : string;
  ticket : string;
  vncticket : string;
  port : port_value
}.

Definition MAX_SAFE_INTEGER : Z := 9007199254740991.

Definition Number_isInteger (n : Q) : bool := Pos.eqb (Qden (Qred n)) 1.

Definition integer_value (n : Q) : Z := Qnum (Qred n).

(** The outcome of one field schema: the issues it raises, or its value. *)
Definition field (A : Type) : Type := list issue + A.

Definition issues_of {A} (f : field A) : list issue :=
  match f with
  | inl i => i
  | inr _ => []
  end.

(** [vmid: z4.int().positive()]: a number, integral, within the safe range
    ([z4.int()] is zod's safe-integer format), and greater than 0. The two
    checks run in this order; the first stops the second on a number that
    is not integral, and not on an integer outside the safe range, so an
    integer below -(2^53 - 1) fails both. *)
Definition vmid_schema (v : option json) : field Z :=
  match v with
  | Some (JNumber n) =>
      if negb (Number_isInteger n) then inl [Issue ["vmid"] invalid_type]
      else if MAX_SAFE_INTEGER <? integer_value n then inl [Issue ["vmid"] too_big]
      else if integer_value n <? - MAX_SAFE_INTEGER then
        inl [Issue ["vmid"] too_small; Issue ["vmid"] too_small]
      else if integer_value n <=? 0 then inl [Issue ["vmid"] too_small]
      else inr (integer_value n)
  | _ => inl [Issue ["vmid"] invalid_type]
  end.

(** [type: z4.enum(["qemu", "lxc"])] *)
Definition type_schema (v : option json) : field guest_type :=
  match v with
  | Some (JString s) =>
      if String.eqb s "qemu" then inr qemu
      else if String.eqb s "lxc" then inr lxc
      else inl [Issue ["type"] invalid_value]
  | _ => inl [Issue ["type"] invalid_value]
  end.

(** [z4.string()] *)
Definition string_schema (key : string) (v : option json) : field string :=
  match v with
  | Some (JString s) => inr s
  | _ => inl [Issue [key] invalid_type]
  end.

(** [port: z4.union([z4.string(), z4.number()])] *)
Definition port_schema (v : option json) : field port_value :=
  match v with
  | Some (JString s) => inr (PortString s)
  | Some (JNumber n) => inr (PortNumber n)
  | _ => inl [Issue ["port"] invalid_union]
  end.

(** The field invariants in the words of the specification: [guestId] is a
    positive integer, [guestType] is qemu or lxc, [host] and [node] are valid
    hostnames, [port] parses to a positive integer, and no field is missing. *)
Definition is_digit (c : ascii) : bool :=
  let n := N_of_ascii c in ((48 <=? n) && (n <=? 57))%N.

Definition positive_integer_text (s : string) : bool :=
  let digits := list_ascii_of_string s in
  forallb is_digit digits && existsb (λ c, negb (Ascii.eqb c "0")) digits.

Definition positive_integer (v : option json) : bool :=
  match v with
  | Some (JNumber n) => Number_isInteger n && (0 <? integer_value n)
  | _ => false
  end.

Definition spec_invariants (valid_hostname : string → bool) (input : json) : bool :=
  match input with
  | JObject members =>
      positive_integer (property "vmid" members)
      && match property "type" members with
         | Some (JString s) => String.eqb s "qemu" || String.eqb s "lxc"
         | _ => false
         end
      && match property "host" members with
         | Some (JString s) => valid_hostname s
         | _ => false
         end
      && match property "node" members with
         | Some (JString s) => valid_hostname s
         | _ => false
         end
      && bool_decide (is_Some (property "ticket" members))
      && bool_decide (is_Some (property "vncticket" members))
      && match property "port" members with
         | Some (JString s) => positive_integer_text s
         | v => positive_integer v
         end
  | _ => false
  end.

(** ** URLs *)

(** The parts of a [URL] object this program writes and its tests read. *)
Record URL := {
  protocol : string;
  hostname : string;
  pathname : string;
  searchParams : list (string * string)
}.

(** [url.searchParams.set(name, value)]: the first pair named [name] takes the
    value and the later ones are removed; without one, the pair is appended. *)
Fixpoint searchParams_set (name value : string) (l : list (string * string))
    : list (string * string) :=
  match l with
  | [] => [(name, value)]
  | (n, v) :: r =>
      if String.eqb n name
      then (name, value) :: filter (λ p, negb (String.eqb p.1 name)) r
      else (n, v) :: searchParams_set name value r
  end.

(** [url.searchParams.get(name)] *)
Fixpoint searchParams_get (name : string) (l : list (string * string)) : option string :=
  match l with
  | [] => None
  | (n, v) :: r => if String.eqb n name then Some v else searchParams_get name r
  end.

Definition guest_type_text (t : guest_type) : string :=
  match t with
  | qemu => "qemu"
  | lxc => "lxc"
  end.

Definition set_port (p : port_value) (d : WebSocketData) : WebSocketData :=
  {| vmid := vmid d; type := type d; host := host d; node := node d;
     ticket := ticket d; vncticket := vncticket d; port := p |}.

(** [s] starts with [p]. *)
Definition starts_with (p s : string) : Prop := ∃ rest, s = p +:+ rest.

(** ** Connections, frames and the calls made on connections *)

Inductive frame :=
  | Text (s : string)
  | Binary (b : bytes).

Inductive ready_state := CONNECTING | OPEN | CLOSING | CLOSED.

(** A client connection after [server.upgrade]: its [ws.data], and whether it
    is still open. *)
Record client := Client {
  data : WebSocketData;
  client_open : bool
}.

(** An upstream [WebSocket] created by the [open] handler: the client [ws] its
    listeners close over, and its [readyState]. *)
Record upstream := Upstream {
  owner : nat;
  readyState : ready_state
}.

(** The server: [sockets] is the module-level [Map<number, WebSocket>]. *)
Record server := Server {
  sockets : gmap Z nat;
  clients : gmap nat client;
  upstreams : gmap nat upstream
}.

Definition initial : server := Server ∅ ∅ ∅.

(** The body of the JSON error responses. *)
Record error_body := ErrorBody {
  error : string;
  code : Z;
  issues : list issue
}.

Inductive fetch_result :=
  | Response (status : Z) (body : error_body)
  | Upgrade (d : WebSocketData).     (* [server.upgrade(request, { data })] *)

(** A request as [fetch] reads it: its method and
    [new URL(request.url).searchParams.get("payload")]. *)
Record request := Request {
  method : string;
  payload_param : option string
}.

(** Calls made on connection objects, and responses sent. *)
Inductive call :=
  | Respond (status : Z) (body : error_body)
  | NewWebSocket (pws : nat) (url : URL) (authorization : string)
  | UpstreamSend (pws : nat) (m : frame)                    (* [socket.send(message)] *)
  | UpstreamClose (pws : nat) (code : Z) (reason : string)  (* [socket.close(code, reason)] *)
  | ClientSend (ws : nat) (m : frame)                       (* [ws.send(data)] *)
  | ClientClose (ws : nat) (code : Z) (reason : string).    (* [ws.close(code, reason)] *)

(** What the runtime delivers to the server. *)
Inductive event :=
  | HttpRequest (r : request)
  | ClientMessage (ws : nat) (m : frame)
  | ClientClosed (ws : nat) (code : Z) (reason : string)
  | UpstreamOpened (pws : nat)
  | UpstreamMessage (pws : nat) (m : frame)
  | UpstreamErrored (pws : nat)
  | UpstreamClosed (pws : nat) (code : Z).

(** ** Instances of the platform, for running the model on concrete inputs *)

Definition is_alnum (c : ascii) : bool :=
  let n := N_of_ascii c in
  ((48 <=? n) && (n <=? 57) || (65 <=? n) && (n <=? 90) || (97 <=? n) && (n <=? 122))%N.

Fixpoint last_char (c : ascii) (s : string) : ascii :=
  match s with
  | "" => c
  | String c' r => last_char c' r
  end.

Definition hostname_label (l : string) : bool :=
  match l with
  | "" => false
  | String c r =>
      is_alnum c && is_alnum (last_char c r) && (String.length l <=? 63)%nat
      && forallb (λ a, is_alnum a || Ascii.eqb a "-") (list_ascii_of_string l)
  end.

Fixpoint drop_final_dot (s : string) : string :=
  match s with
  | "" => ""
  | String c "" => if Ascii.eqb c "." then "" else s
  | String c r => String c (drop_final_dot r)
  end.

(** zod's hostname pattern: labels of at most 63 letters, digits and hyphens
    that begin and end with a letter or digit, separated by dots, 253
    characters at most, with an optional final dot. *)
Definition zod_hostname (s : string) : bool :=
  let name := drop_final_dot s in
  (1 <=? String.length name)%nat && (String.length name <=? 253)%nat
  && forallb hostname_label (split "." name).

Definition ascii_lower (c : ascii) : ascii :=
  let n := N_of_ascii c in
  if ((65 <=? n) && (n <=? 90))%N then ascii_of_N (n + 32) else c.

Fixpoint lower_case (s : string) : string :=
  match s with
  | "" => ""
  | String c r => String (ascii_lower c) (lower_case r)
  end.

(** The host parser of the URL Standard on a DNS name written in letters,
    digits, hyphens and dots: ASCII upper-case letters are lowered. *)
Definition dns_host_parser (h : string) : option string := Some (lower_case h).

(** A stand-in for the block cipher that satisfies the two laws assumed of
    AES-CBC below: it appends one padding byte and removes it again. *)
Definition pad_encrypt (key iv plaintext : bytes) : bytes := plaintext ++ [x01].

Definition pad_decrypt (key iv ciphertext : bytes) : option bytes :=
  match reverse ciphertext with
  | x01 :: r => Some (reverse r)
  | _ => None
  end.

(** A runtime whose [WebSocket.close] refuses the two codes that never
    travel in a close frame, 1005 (no status received) and 1006 (abnormal
    closure), and accepts every other code. *)
Definition unreserved_code (code : Z) (reason : string) : bool :=
  negb (bool_decide (code ∈ [1005; 1006])).

(** A stand-in for the printing of non-integral numbers; no example below
    prints one. *)
Definition unprinted (n : Q) : string := "".

(** ASCII text as a JavaScript string. *)
Definition of_ascii (s : string) : utf16 :=
  (λ c, Z.of_N (N_of_ascii c)) <$> list_ascii_of_string s.

Definition sample_key : string :=
  "0123456789abcdef0123456789abcdef0123456789abcdef0123456789abcdef".

Definition sample_iv : bytes :=
  [x00; x01; x02; x03; x04; x05; x06; x07; x08; x09; x0a; x0b; x0c; x0d; x0e; x0f].

(** The payload of the repository's tests, parsed. *)
Definition sample_json : json :=
  JObject [("vmid", JNumber (inject_Z 1000)); ("type", JString "qemu");
           ("host", JString "pve01.example.com"); ("node", JString "pve01");
           ("ticket", JString "PVEAPIToken=test"); ("vncticket", JString "vnc-ticket");
           ("port", JNumber (inject_Z 5900))].

Definition sample_data : WebSocketData :=
  {| vmid := 1000; type := qemu; host := "pve01.example.com"; node := "pve01";
     ticket := "PVEAPIToken=test"; vncticket := "vnc-ticket";
     port := PortNumber (inject_Z 5900) |}.

(** The same payload with a port that is text but no number. *)
Definition text_port_json : json :=
  JObject [("vmid", JNumber (inject_Z 1000)); ("type", JString "qemu");
           ("host", JString "pve01.example.com"); ("node", JString "pve01");
           ("ticket", JString "PVEAPIToken=test"); ("vncticket", JString "vnc-ticket");
           ("port", JString "abc")].



(** The wire string of the text [sample] under [pad_encrypt] and [sample_iv]. *)
Definition sample_wire : string := "000102030405060708090a0b0c0d0e0f:73616d706c6501".

(** Two sessions for guest 1000, both with their upstream open; the second
    registration has replaced the first. *)
Definition two_sessions : list event :=
  [HttpRequest (Request "GET" (Some sample_wire)); UpstreamOpened 0;
   HttpRequest (Request "GET" (Some sample_wire)); UpstreamOpened 1].

(** A [JSON.parse] that knows one document, here named by the text
    [sample]; every other text is a syntax error. *)
Definition sample_JSON_parse (text : utf16) : option json :=
  if decide (text = of_ascii "sample") then Some sample_json else None.

(** A payload whose host is written like an IPv4 address of five parts. *)
Definition five_part_data : WebSocketData :=
  {| vmid := 1000; type := qemu; host := "1.2.3.4.5"; node := "pve01";
     ticket := "PVEAPIToken=test"; vncticket := "vnc-ticket";
     port := PortNumber (inject_Z 5900) |}.

Definition five_part_json : json :=
  JObject [("vmid", JNumber (inject_Z 1000)); ("type", JString "qemu");
           ("host", JString "1.2.3.4.5"); ("node", JString "pve01");
           ("ticket", JString "PVEAPIToken=test"); ("vncticket", JString "vnc-ticket");
           ("port", JNumber (inject_Z 5900))].

(** A [JSON.parse] that reads the text [sample] as that payload. *)
Definition five_part_JSON_parse (text : utf16) : option json :=
  if decide (text = of_ascii "sample") then Some five_part_json else None.

Definition numeric_label (l : string) : bool :=
  negb (String.eqb l "") && forallb is_digit (list_ascii_of_string l).

(** The host parser with one of the failures of the URL Standard: a name
    whose last label is a decimal number is read as an IPv4 address, and an
    IPv4 address of more than four parts is rejected. Every other name is
    lowered, as by [dns_host_parser]. *)
Definition ipv4_host_parser (h : string) : option string :=
  let labels := split "." (drop_final_dot h) in
  if numeric_label (List.last labels "") && (4 <? length labels)%nat then None
  else Some (lower_case h).

Section Proxxy.

Set Default Proof Using "Type".

(** ** The platform *)

(** AES-CBC of [crypto.subtle], on raw key, iv and data;
    [None] is the [OperationError] of a failed decryption. *)
Variable aes_cbc_encrypt : bytes → bytes → bytes → bytes.
Variable aes_cbc_decrypt : bytes → bytes → bytes → option bytes.

(** What is assumed of the cipher: with a 256-bit key and a 16-byte iv,
    decryption inverts encryption, and a ciphertext is never empty (it holds
    at least the padding block). *)
Definition AES_CBC_correct : Prop :=
  ∀ key iv plaintext, length key = 32%nat → length iv = 16%nat →
    aes_cbc_decrypt key iv (aes_cbc_encrypt key iv plaintext) = Some plaintext
    ∧ aes_cbc_encrypt key iv plaintext ≠ [].

(** [JSON.parse]; [None] is its [SyntaxError]. *)
Variable JSON_parse : utf16 → option json.

(** The pattern behind [z4.hostname()]. *)
Variable hostname_pattern : string → bool.

(** The host parser run by [new URL] on the authority of a [wss:] URL: the
    host in canonical form, or [None] where the constructor throws. *)
Variable host_parser : string → option string.

(** [Number::toString] on the numbers that are not printed as a plain
    decimal integer. *)
Variable Number_toString_other : Q → string.

(** [process.env.SIGNATURE_KEY] *)
Variable SIGNATURE_KEY : option string.

(** [WebSocket.close(code, reason)] on an upstream socket: [true] where the
    call returns, [false] where it throws. The WebSocket standard has it
    throw on a code or reason that may not be sent; which codes those are
    is the runtime's matter, the codes 1005 and 1006 that a close event
    reports for a missing status or a lost connection among them. *)
Variable close_accepts : Z → string → bool.

(** ** src/utils.ts *)

(** [z4.hostname()] *)
Definition hostname_schema (key : string) (v : option json) : field string :=
  match v with
  | Some (JString s) =>
      if hostname_pattern s then inr s else inl [Issue [key] invalid_format]
  | _ => inl [Issue [key] invalid_type]
  end.

(** [websocketDataSchema.parseAsync(input)]: every field schema runs on the
    property of its name, the issues of all fields are collected, and the
    output holds the seven fields and nothing else. *)
Definition websocketDataSchema (input : json) : result WebSocketData :=
  match input with
  | JObject members =>
      let f_vmid := vmid_schema (property "vmid" members) in
      let f_type := type_schema (property "type" members) in
      let f_host := hostname_schema "host" (property "host" members) in
      let f_node := hostname_schema "node" (property "node" members) in
      let f_ticket := string_schema "ticket" (property "ticket" members) in
      let f_vncticket := string_schema "vncticket" (property "vncticket" members) in
      let f_port := port_schema (property "port" members) in
      match f_vmid, f_type, f_host, f_node, f_ticket, f_vncticket, f_port with
      | inr vmid, inr type, inr host, inr node, inr ticket, inr vncticket, inr port =>
          Ok {| vmid := vmid; type := type; host := host; node := node;
                ticket := ticket; vncticket := vncticket; port := port |}
      | _, _, _, _, _, _, _ =>
          Throw (ZodError (issues_of f_vmid ++ issues_of f_type ++ issues_of f_host
                           ++ issues_of f_node ++ issues_of f_ticket
                           ++ issues_of f_vncticket ++ issues_of f_port))
      end
  | _ => Throw (ZodError [Issue [] invalid_type])
  end.

(** What the schema accepts, field by field: [d] is the output for [input]. *)
Definition schema_accepts (input : json) (d : WebSocketData) : Prop :=
  ∃ members, input = JObject members
  ∧ (∃ n, property "vmid" members = Some (JNumber n) ∧ Number_isInteger n = true
          ∧ integer_value n = vmid d ∧ 0 < vmid d <= MAX_SAFE_INTEGER)
  ∧ property "type" members = Some (JString (guest_type_text (type d)))
  ∧ (property "host" members = Some (JString (host d)) ∧ hostname_pattern (host d) = true)
  ∧ (property "node" members = Some (JString (node d)) ∧ hostname_pattern (node d) = true)
  ∧ property "ticket" members = Some (JString (ticket d))
  ∧ property "vncticket" members = Some (JString (vncticket d))
  ∧ property "port" members
    = Some match port d with
           | PortString s => JString s
           | PortNumber n => JNumber n
           end.

(** What the schema guarantees of its output. *)
Definition validated (d : WebSocketData) : Prop :=
  0 < vmid d <= MAX_SAFE_INTEGER
  ∧ hostname_pattern (host d) = true
  ∧ hostname_pattern (node d) = true.

(** A number in a template literal: a safe integer, of magnitude at most
    2^53 - 1, is printed as its decimal digits. Above that [Number::toString]
    prints the shortest digits that read back as the same double, which are
    not the digits of the integer. *)
Definition Number_toString (n : Q) : string :=
  if Number_isInteger n && (Z.abs (integer_value n) <=? MAX_SAFE_INTEGER)
  then pretty (integer_value n)
  else Number_toString_other n.

Definition port_text (p : port_value) : string :=
  match p with
  | PortString s => s
  | PortNumber n => Number_toString n
  end.

(** [new URL(input)] on the inputs this program builds, [wss://] followed by
    a host name. The path and query of the URL object hold text as it is
    written to them: on the letters, digits, hyphens and dots of a validated
    descriptor the serialisers of the URL Standard change nothing, and
    [searchParams] hands back the values it was given. *)
Definition new_URL (input : string) : result URL :=
  if String.prefix "wss://" input then
    match host_parser (String.substring 6 (String.length input - 6) input) with
    | Some h => Ok {| protocol := "wss:"; hostname := h; pathname := "/"; searchParams := [] |}
    | None => Throw TypeError
    end
  else Throw TypeError.

Definition set_pathname (path : string) (url : URL) : URL :=
  {| protocol := protocol url; hostname := hostname url; pathname := path;
     searchParams := searchParams url |}.

Definition set_searchParam (name value : string) (url : URL) : URL :=
  {| protocol := protocol url; hostname := hostname url; pathname := pathname url;
     searchParams := searchParams_set name value (searchParams url) |}.

Definition constructWebsocketUrl (d : WebSocketData) : result URL :=
  let* url := new_URL ("wss://" +:+ host d) in
  let url := set_pathname ("/api2/json/nodes/" +:+ node d +:+ "/" +:+ guest_type_text (type d)
                           +:+ "/" +:+ Number_toString (inject_Z (vmid d)) +:+ "/vncwebsocket") url in
  let url := set_searchParam "port" (port_text (port d)) url in
  let url := set_searchParam "vncticket" (vncticket d) url in
  Ok url.

(** [crypto.subtle.importKey("raw", keyData, { name: "AES-CBC", length: 256 }, ...)]:
    a raw AES key has 128, 192 or 256 bits. *)
Definition importKey (keyData : bytes) : result bytes :=
  if bool_decide (length keyData ∈ [16; 24; 32]%nat) then Ok keyData else Throw DataError.

Definition decryptPayload (payload : string) : result utf16 :=
  let parts := split ":" payload in
  let ivHex := parts !! 0%nat in
  let encryptedHex := parts !! 1%nat in
  if negb (truthy ivHex) || negb (truthy encryptedHex) then
    Throw (Error "Payload is malformed")
  else
    let iv := Buffer_from_hex (default "" ivHex) in
    let encrypted := Buffer_from_hex (default "" encryptedHex) in
    if negb (truthy SIGNATURE_KEY) then
      Throw (Error "SIGNATURE_KEY environment variable is not set")
    else
      let* key := importKey (Buffer_from_hex (default "" SIGNATURE_KEY)) in
      let* decrypted :=
        match aes_cbc_decrypt key iv encrypted with
        | Some plaintext => Ok plaintext
        | None => Throw OperationError
        end in
      Ok (TextDecoder_decode decrypted).

(** ** examples/typescript-proxmox-api.ts *)

(** [encryptPayload]; [key_text] is the module's [SIGNATURE_KEY] and [iv] the
    16 bytes drawn by [crypto.getRandomValues]. *)
Definition encryptPayload (key_text : string) (iv : bytes) (payload : utf16) : result string :=
  let* key := importKey (Buffer_from_hex key_text) in
  let encodedPayload := TextEncoder_encode payload in
  let encryptedBuffer := aes_cbc_encrypt key iv encodedPayload in
  let ivHex := toString_hex iv in
  let encryptedHex := toString_hex encryptedBuffer in
  Ok (ivHex +:+ ":" +:+ encryptedHex).

(** ** src/index.ts *)

Definition fetch (r : request) : fetch_result :=
  if negb (String.eqb (method r) "GET") then
    Response 405 (ErrorBody "Method not allowed. Supported methods: GET" 405 [])
  else
    let attempt : result fetch_result :=
      if negb (truthy (payload_param r)) then
        Ok (Response 400 (ErrorBody "Missing payload" 400 []))
      else
        let* decryptedPayload := decryptPayload (default "" (payload_param r)) in
        let* json :=
          match JSON_parse decryptedPayload with
          | Some j => Ok j
          | None => Throw SyntaxError
          end in
        let* data := websocketDataSchema json in
        Ok (Upgrade data) in
    match attempt with
    | Ok res => res
    | Throw (ZodError issues) => Response 400 (ErrorBody "Invalid payload" 400 issues)
    | Throw _ => Response 500 (ErrorBody "Internal server error" 500 [])
    end.

(** The [authorization] header of the upstream connection. *)
Definition authorization (ticket : string) : string :=
  if String.prefix "PVEAPIToken=" ticket then ticket else "PVEAuthCookie=" +:+ ticket.

(** [socket.close(code, reason)] on an upstream socket. *)
Definition closing (u : upstream) : upstream :=
  match readyState u with
  | CONNECTING | OPEN => Upstream (owner u) CLOSING
  | _ => u
  end.

(** [close(ws, code, reason)]: [socket.close(code, reason)] comes before
    [sockets.delete], so where the call throws the handler ends there: the
    upstream socket is not closed and the entry stays. *)
Definition websocket_close (σ : server) (ws : nat) (code : Z) (reason : string)
    : server * list call :=
  match clients σ !! ws with
  | Some c =>
      match sockets σ !! vmid (data c) with
      | Some socket =>
          if close_accepts code reason then
            (Server (delete (vmid (data c)) (sockets σ)) (clients σ)
                    (alter closing socket (upstreams σ)),
             [UpstreamClose socket code reason])
          else (σ, [])
      | None => (σ, [])
      end
  | None => (σ, [])
  end.

(** The client connection [ws] goes away, closed by its peer or by the
    server: the runtime runs the [close] handler, once per connection. *)
Definition client_gone (σ : server) (ws : nat) (code : Z) (reason : string)
    : server * list call :=
  match clients σ !! ws with
  | Some c =>
      if client_open c then
        websocket_close
          (Server (sockets σ) (<[ws := Client (data c) false]> (clients σ)) (upstreams σ))
          ws code reason
      else (σ, [])
  | None => (σ, [])
  end.

(** [ws.close(code, reason)] on a client connection, called by the server:
    the call is recorded, and a connection that was still open goes away,
    its [close] handler running with the code and reason of the call (the
    server side of the runtime passes them on as they are). *)
Definition ws_close (σ : server) (ws : nat) (code : Z) (reason : string)
    : server * list call :=
  let '(σ', calls) := client_gone σ ws code reason in
  (σ', ClientClose ws code reason :: calls).

(** [message(ws, message)] *)
Definition websocket_message (σ : server) (ws : nat) (message : frame)
    : server * list call :=
  match clients σ !! ws with
  | Some c =>
      match sockets σ !! vmid (data c) with
      | None => ws_close σ ws 1011 "Upstream websocket not found"
      | Some socket => (σ, [UpstreamSend socket message])
      end
  | None => (σ, [])
  end.

(** [open(ws)]: the upstream socket [pws] is created, still connecting. *)
Definition websocket_open (σ : server) (ws : nat) : server * list call :=
  match clients σ !! ws with
  | Some c =>
      match constructWebsocketUrl (data c) with
      | Ok url =>
          let headers := authorization (ticket (data c)) in
          let pws := fresh (dom (upstreams σ)) in
          (Server (sockets σ) (clients σ) (<[pws := Upstream ws CONNECTING]> (upstreams σ)),
           [NewWebSocket pws url headers])
      | Throw _ => (σ, [])
      end
  | None => (σ, [])
  end.

Definition set_readyState (pws : nat) (s : ready_state) (σ : server) : server :=
  Server (sockets σ) (clients σ) (alter (λ u, Upstream (owner u) s) pws (upstreams σ)).

(** The listener of [pws] for "open": [sockets.set(ws.data.vmid, pws)]. *)
Definition pws_open (σ : server) (pws : nat) : server * list call :=
  match upstreams σ !! pws with
  | Some u =>
      match readyState u, clients σ !! owner u with
      | CONNECTING, Some c =>
          let σ := set_readyState pws OPEN σ in
          (Server (<[vmid (data c) := pws]> (sockets σ)) (clients σ) (upstreams σ), [])
      | _, _ => (σ, [])
      end
  | None => (σ, [])
  end.

(** The listener of [pws] for "message": [ws.send(data)]. *)
Definition pws_message (σ : server) (pws : nat) (m : frame) : server * list call :=
  match upstreams σ !! pws with
  | Some u =>
      match readyState u with
      | OPEN | CLOSING => (σ, [ClientSend (owner u) m])
      | _ => (σ, [])
      end
  | None => (σ, [])
  end.

(** The listener of [pws] for "error". *)
Definition pws_error (σ : server) (pws : nat) : server * list call :=
  match upstreams σ !! pws with
  | Some u =>
      match readyState u with
      | CLOSED => (σ, [])
      | _ => ws_close σ (owner u) 1011 "Upstream websocket error"
      end
  | None => (σ, [])
  end.

(** The listener of [pws] for "close". *)
Definition pws_close (σ : server) (pws : nat) (code : Z) : server * list call :=
  match upstreams σ !! pws with
  | Some u =>
      match readyState u with
      | CLOSED => (σ, [])
      | _ => ws_close (set_readyState pws CLOSED σ) (owner u) code "Upstream websocket closed"
      end
  | None => (σ, [])
  end.

(** One event of the runtime. A request that [fetch] upgrades creates the
    client connection and runs [open] on it. An event for a connection that
    does not exist, or that its state rules out (a second "open", anything
    after "close"), changes nothing. *)
Definition step (σ : server) (e : event) : server * list call :=
  match e with
  | HttpRequest r =>
      match fetch r with
      | Response status body => (σ, [Respond status body])
      | Upgrade d =>
          let ws := fresh (dom (clients σ)) in
          websocket_open (Server (sockets σ) (<[ws := Client d true]> (clients σ)) (upstreams σ)) ws
      end
  | ClientMessage ws m => websocket_message σ ws m
  | ClientClosed ws code reason => client_gone σ ws code reason
  | UpstreamOpened pws => pws_open σ pws
  | UpstreamMessage pws m => pws_message σ pws m
  | UpstreamErrored pws => pws_error σ pws
  | UpstreamClosed pws code => pws_close σ pws code
  end.

Fixpoint run (σ : server) (es : list event) : server * list call :=
  match es with
  | [] => (σ, [])
  | e :: es' =>
      let '(σ1, calls1) := step σ e in
      let '(σ2, calls2) := run σ1 es' in
      (σ2, calls1 ++ calls2)
  end.


(** The registry is consistent when every entry names an upstream socket
    that has opened and that was created for a client of that guest. *)
Definition consistent (σ : server) : Prop :=
  ∀ v p, sockets σ !! v = Some p →
    ∃ u c, upstreams σ !! p = Some u ∧ readyState u ≠ CONNECTING
           ∧ clients σ !! owner u = Some c ∧ vmid (data c) = v.

(** Connections keep their identity: a step never changes the data of a
    client or the owner of an upstream socket, and a socket never goes back
    to connecting. *)
Definition extends (σ σ' : server) : Prop :=
  (∀ ws c, clients σ !! ws = Some c → ∃ c', clients σ' !! ws = Some c' ∧ data c' = data c)
  ∧ (∀ p u, upstreams σ !! p = Some u →
       ∃ u', upstreams σ' !! p = Some u' ∧ owner u' = owner u
             ∧ (readyState u ≠ CONNECTING → readyState u' ≠ CONNECTING)).

(** The payload object that [getConsoleUrl] serialises, as [JSON.parse]
    hands it to the schema. *)
Definition descriptor_json (d : WebSocketData) : json :=
  JObject [("vmid", JNumber (inject_Z (vmid d)));
           ("type", JString (guest_type_text (type d)));
           ("host", JString (host d));
           ("node", JString (node d));
           ("ticket", JString (ticket d));
           ("vncticket", JString (vncticket d));
           ("port", match port d with
                    | PortString s => JString s
                    | PortNumber n => JNumber n
                    end)].

(** The keys of [websocketDataSchema]. *)
Definition schema_keys : list string :=
  ["vmid"; "type"; "host"; "node"; "ticket"; "vncticket"; "port"].

(** The issues [found] name the field [key]. *)
Definition mentions (key : string) (found : list issue) : Prop :=
  ∃ i, i ∈ found ∧ issue_path i = [key].

(** Connections persist: from [σ] to [σ'], a client keeps its data and,
    once closed, stays closed; an upstream socket keeps its owner, never
    goes back to connecting and, once closed, stays closed. *)
Definition persists (σ σ' : server) : Prop :=
  (∀ ws c, clients σ !! ws = Some c →
     ∃ c', clients σ' !! ws = Some c' ∧ data c' = data c
           ∧ (client_open c = false → client_open c' = false))
  ∧ (∀ p u, upstreams σ !! p = Some u →
       ∃ u', upstreams σ' !! p = Some u' ∧ owner u' = owner u
             ∧ (readyState u ≠ CONNECTING → readyState u' ≠ CONNECTING)
             ∧ (readyState u = CLOSED → readyState u' = CLOSED)).

(** Traffic of one session: frames from the client ([inl]) and from the
    upstream ([inr]), as events and as the calls that forward them. *)
Definition traffic_event (ws pws : nat) (x : frame + frame) : event :=
  match x with
  | inl m => ClientMessage ws m
  | inr m => UpstreamMessage pws m
  end.

Definition traffic_call (ws socket : nat) (x : frame + frame) : call :=
  match x with
  | inl m => UpstreamSend socket m
  | inr m => ClientSend ws m
  end.

(** The frame that an event delivers to the relay, and the frame that a
    call of the relay sends. *)
Definition arrived (e : event) : option frame :=
  match e with
  | ClientMessage _ m | UpstreamMessage _ m => Some m
  | _ => None
  end.

Definition sent (x : call) : option frame :=
  match x with
  | ClientSend _ m | UpstreamSend _ m => Some m
  | _ => None
  end.

(** Every upstream socket belongs to a client connection, and no two
    upstream sockets belong to the same one. *)
Definition one_upstream_per_client (σ : server) : Prop :=
  (∀ p u, upstreams σ !! p = Some u → is_Some (clients σ !! owner u))
  ∧ (∀ p q u u', upstreams σ !! p = Some u → upstreams σ !! q = Some u' →
       owner u = owner u' → p = q).

(** * Properties *)

(** ** Hex and split *)

Lemma hex_pair_inverse (x : byte) :
  hex_value (hex_digit (Byte.to_N x / 16)) = Some (Byte.to_N x / 16)%N ∧
  hex_value (hex_digit (Byte.to_N x mod 16)) = Some (Byte.to_N x mod 16)%N ∧
  Byte.of_N (16 * (Byte.to_N x / 16) + Byte.to_N x mod 16) = Some x.
Proof. destruct x; repeat split; reflexivity. Qed.

Lemma Buffer_from_toString_hex (b : bytes) : Buffer_from_hex (toString_hex b) = b.
Proof.
  induction b as [|x b IH]; [reflexivity|].
  cbn [toString_hex Buffer_from_hex].
  destruct (hex_pair_inverse x) as (-> & -> & ->). cbn [default]. by rewrite IH.
Qed.

Lemma hex_pair_no_colon (x : byte) :
  Ascii.eqb (hex_digit (Byte.to_N x / 16)) ":" = false ∧
  Ascii.eqb (hex_digit (Byte.to_N x mod 16)) ":" = false.
Proof. destruct x; split; reflexivity. Qed.

Lemma halves_toString_hex (b : bytes) : halves (toString_hex b) = None.
Proof.
  induction b as [|x b IH]; [reflexivity|].
  cbn [toString_hex halves].
  destruct (hex_pair_no_colon x) as [-> ->]. by rewrite IH.
Qed.

Lemma halves_app (a r : string) :
  halves a = None → halves (a +:+ ":" +:+ r) = Some (a, r).
Proof.
  induction a as [|c a IH]; [reflexivity|].
  change (String c a +:+ ":" +:+ r) with (String c (a +:+ ":" +:+ r)).
  cbn [halves]. destruct (Ascii.eqb c ":"); [done|].
  destruct (halves a) as [[]|] eqn:E; [done|]. intros _. by rewrite IH.
Qed.

Lemma split_halves (s : string) :
  split ":" s = match halves s with
                | None => [s]
                | Some (a, b) => a :: split ":" b
                end.
Proof.
  induction s as [|c s IH]; [reflexivity|].
  cbn [split halves]. destruct (Ascii.eqb c ":"); [done|].
  rewrite IH. by destruct (halves s) as [[a b]|].
Qed.

Lemma truthy_toString_hex (b : bytes) :
  b ≠ [] → truthy (Some (toString_hex b)) = true.
Proof. by destruct b. Qed.

(** ** The text codec *)

Ltac decide_tests :=
  repeat match goal with
  | |- context [?a <=? ?b] => destruct (Z.leb_spec a b); try lia
  | |- context [?a <? ?b] => destruct (Z.ltb_spec a b); try lia
  | |- context [?a =? ?b] => destruct (Z.eqb_spec a b); try lia
  end.

Ltac handler_tests :=
  unfold utf8_handler;
  cbn [bytes_needed bytes_seen lower_boundary upper_boundary code_point utf8_start];
  decide_tests; reflexivity.

Lemma utf8_handler_ascii b :
  0 <= b <= 0x7F → utf8_handler utf8_start b = (utf8_start, Emit b).
Proof. intros. handler_tests. Qed.

Lemma utf8_handler_lead2 b :
  0xC2 <= b <= 0xDF →
  utf8_handler utf8_start b = (Utf8State (b mod 32) 0 1 0x80 0xBF, Continue).
Proof. intros. handler_tests. Qed.

Lemma utf8_handler_lead3 b :
  0xE0 <= b <= 0xEF →
  utf8_handler utf8_start b
  = (Utf8State (b mod 16) 0 2 (if b =? 0xE0 then 0xA0 else 0x80)
       (if b =? 0xED then 0x9F else 0xBF), Continue).
Proof. intros. handler_tests. Qed.

Lemma utf8_handler_lead4 b :
  0xF0 <= b <= 0xF4 →
  utf8_handler utf8_start b
  = (Utf8State (b mod 8) 0 3 (if b =? 0xF0 then 0x90 else 0x80)
       (if b =? 0xF4 then 0x8F else 0xBF), Continue).
Proof. intros. handler_tests. Qed.

Lemma utf8_handler_more c seen needed lo hi b :
  needed ≠ 0 → lo <= b <= hi → seen + 1 ≠ needed →
  utf8_handler (Utf8State c seen needed lo hi) b
  = (Utf8State (c * 64 + b mod 64) (seen + 1) needed 0x80 0xBF, Continue).
Proof. intros. handler_tests. Qed.

Lemma utf8_handler_last c seen needed lo hi b :
  needed ≠ 0 → lo <= b <= hi → seen + 1 = needed →
  utf8_handler (Utf8State c seen needed lo hi) b = (utf8_start, Emit (c * 64 + b mod 64)).
Proof. intros. handler_tests. Qed.

Lemma utf8_decode_continue st b r st' :
  utf8_handler st b = (st', Continue) → utf8_decode st (b :: r) = utf8_decode st' r.
Proof. intros H. cbn [utf8_decode]. by rewrite H. Qed.

Lemma utf8_decode_emit st b r st' c :
  utf8_handler st b = (st', Emit c) → utf8_decode st (b :: r) = c :: utf8_decode st' r.
Proof. intros H. cbn [utf8_decode]. by rewrite H. Qed.

Ltac boundaries := repeat case_match; lia.

Lemma utf8_decode_1 b r :
  0 <= b <= 0x7F → utf8_decode utf8_start (b :: r) = b :: utf8_decode utf8_start r.
Proof. intros. by apply utf8_decode_emit, utf8_handler_ascii. Qed.

Lemma utf8_decode_2 b1 b2 r :
  0xC2 <= b1 <= 0xDF → 0x80 <= b2 <= 0xBF →
  utf8_decode utf8_start (b1 :: b2 :: r)
  = b1 mod 32 * 64 + b2 mod 64 :: utf8_decode utf8_start r.
Proof.
  intros. rewrite (utf8_decode_continue _ _ _ _ (utf8_handler_lead2 b1 ltac:(done))).
  apply utf8_decode_emit, utf8_handler_last; lia.
Qed.

Lemma utf8_decode_3 b1 b2 b3 r :
  0xE0 <= b1 <= 0xEF → 0x80 <= b2 <= 0xBF → 0x80 <= b3 <= 0xBF →
  (b1 = 0xE0 → 0xA0 <= b2) → (b1 = 0xED → b2 <= 0x9F) →
  utf8_decode utf8_start (b1 :: b2 :: b3 :: r)
  = (b1 mod 16 * 64 + b2 mod 64) * 64 + b3 mod 64 :: utf8_decode utf8_start r.
Proof.
  intros. rewrite (utf8_decode_continue _ _ _ _ (utf8_handler_lead3 b1 ltac:(done))).
  erewrite utf8_decode_continue by (apply utf8_handler_more; boundaries).
  apply utf8_decode_emit, utf8_handler_last; lia.
Qed.

Lemma utf8_decode_4 b1 b2 b3 b4 r :
  0xF0 <= b1 <= 0xF4 → 0x80 <= b2 <= 0xBF → 0x80 <= b3 <= 0xBF → 0x80 <= b4 <= 0xBF →
  (b1 = 0xF0 → 0x90 <= b2) → (b1 = 0xF4 → b2 <= 0x8F) →
  utf8_decode utf8_start (b1 :: b2 :: b3 :: b4 :: r)
  = ((b1 mod 8 * 64 + b2 mod 64) * 64 + b3 mod 64) * 64 + b4 mod 64
    :: utf8_decode utf8_start r.
Proof.
  intros. rewrite (utf8_decode_continue _ _ _ _ (utf8_handler_lead4 b1 ltac:(done))).
  erewrite utf8_decode_continue by (apply utf8_handler_more; boundaries).
  erewrite utf8_decode_continue by (apply utf8_handler_more; lia).
  apply utf8_decode_emit, utf8_handler_last; lia.
Qed.

(** Linear arithmetic with division and remainder by constants; variables
    the goal does not mention are dropped first. *)
Ltac drop_unused :=
  repeat match goal with
  | x : ?T |- _ => lazymatch type of T with Prop => fail | _ => clear x end
  end.

Ltac euclid := drop_unused; Z.div_mod_to_equations; lia.

Lemma utf8_decode_encode c r :
  is_scalar c → utf8_decode utf8_start (utf8_encode c ++ r) = c :: utf8_decode utf8_start r.
Proof.
  intros [Hr Hs]. unfold utf8_encode.
  destruct (Z.ltb_spec c 0x80); [|destruct (Z.ltb_spec c 0x800); [|destruct (Z.ltb_spec c 0x10000)]];
    cbn [app].
  - apply utf8_decode_1. lia.
  - rewrite utf8_decode_2 by euclid. f_equal. euclid.
  - rewrite utf8_decode_3 by euclid. f_equal. euclid.
  - rewrite utf8_decode_4 by euclid. f_equal. euclid.
Qed.

Lemma utf8_decode_encode_all cps :
  Forall is_scalar cps → utf8_decode utf8_start (cps ≫= utf8_encode) = cps.
Proof.
  induction 1 as [|c cps Hc _ IH]; [reflexivity|].
  rewrite bind_cons, utf8_decode_encode by done. by rewrite IH.
Qed.

Lemma utf8_encode_bytes c :
  is_scalar c → Forall (λ b, 0 <= b < 256) (utf8_encode c).
Proof.
  intros [Hr Hs]. unfold utf8_encode.
  destruct (Z.ltb_spec c 0x80); [|destruct (Z.ltb_spec c 0x800); [|destruct (Z.ltb_spec c 0x10000)]];
    repeat constructor; euclid.
Qed.

Lemma byte_to_of_Z z : 0 <= z < 256 → byte_to_Z (byte_of_Z z) = z.
Proof.
  intros Hz. unfold byte_to_Z, byte_of_Z. rewrite Z.mod_small by done.
  destruct (Byte.of_N (Z.to_N z)) as [b|] eqn:E.
  - apply Byte.to_of_N in E. cbn. rewrite E. lia.
  - apply Byte.of_N_None_iff in E. lia.
Qed.

Lemma bytes_to_of_Z zs :
  Forall (λ b, 0 <= b < 256) zs → byte_to_Z <$> (byte_of_Z <$> zs) = zs.
Proof.
  induction 1 as [|z zs Hz _ IH]; [reflexivity|].
  cbn [fmap list_fmap]. rewrite byte_to_of_Z by done. f_equal. apply IH.
Qed.

Lemma strip_BOM_other bs :
  (∀ r, bs ≠ 0xEF :: 0xBB :: 0xBF :: r) → strip_BOM bs = bs.
Proof.
  intros H. destruct bs as [|b1 [|b2 [|b3 r]]]; try reflexivity.
  cbn [strip_BOM].
  destruct (Z.eqb_spec b1 0xEF) as [->|]; [|done].
  destruct (Z.eqb_spec b2 0xBB) as [->|]; [|done].
  destruct (Z.eqb_spec b3 0xBF) as [->|]; [|done].
  by destruct (H r).
Qed.

Lemma utf8_encode_not_BOM c rest r :
  is_scalar c → c ≠ 0xFEFF → utf8_encode c ++ rest ≠ 0xEF :: 0xBB :: 0xBF :: r.
Proof.
  intros [Hr Hs] Hc. unfold utf8_encode.
  destruct (Z.ltb_spec c 0x80); [|destruct (Z.ltb_spec c 0x800); [|destruct (Z.ltb_spec c 0x10000)]];
    cbn [app]; intros E; injection E; intros; euclid.
Qed.

Lemma surrogate_tests u :
  (is_high_surrogate u = true ↔ 0xD800 <= u <= 0xDBFF) ∧
  (is_low_surrogate u = true ↔ 0xDC00 <= u <= 0xDFFF).
Proof. unfold is_high_surrogate, is_low_surrogate. split; rewrite andb_true_iff, !Z.leb_le; done. Qed.

Lemma surrogate_tests_false u :
  (is_high_surrogate u = false ↔ ¬ 0xD800 <= u <= 0xDBFF) ∧
  (is_low_surrogate u = false ↔ ¬ 0xDC00 <= u <= 0xDFFF).
Proof.
  destruct (surrogate_tests u) as [H L].
  split; rewrite <-not_true_iff_false; [by rewrite H|by rewrite L].
Qed.

Lemma scalar_values_well_formed s :
  well_formed s →
  Forall is_scalar (scalar_values s) ∧ scalar_values s ≫= code_units = s
  ∧ (head s ≠ Some 0xFEFF → head (scalar_values s) ≠ Some 0xFEFF).
Proof.
  induction 1 as [|u s Hu Hh Hl _ (IH1 & IH2 & _)|h l s Hh Hl _ (IH1 & IH2 & _)].
  - by repeat split.
  - cbn [scalar_values]. rewrite Hh, Hl.
    apply surrogate_tests_false in Hh, Hl.
    split_and!; [constructor; [split; lia|done]| |done].
    rewrite bind_cons, IH2. unfold code_units.
    destruct (Z.ltb_spec u 0x10000); [done|lia].
  - cbn [scalar_values]. rewrite Hh, Hl.
    apply surrogate_tests in Hh, Hl.
    split_and!; [constructor; [split; lia|done]| |cbn; intros _ [= ?]; lia].
    rewrite bind_cons, IH2. unfold code_units.
    destruct (Z.ltb_spec (65536 + (h - 55296) * 1024 + (l - 56320)) 0x10000); [lia|].
    cbn [app]. f_equal; [euclid|f_equal; euclid].
Qed.

Lemma Forall_bind_bytes cps :
  Forall is_scalar cps → Forall (λ b, 0 <= b < 256) (cps ≫= utf8_encode).
Proof.
  induction 1 as [|c cps Hc _ IH]; [constructor|].
  rewrite bind_cons. apply Forall_app. split; [by apply utf8_encode_bytes|done].
Qed.

(** The text codec returns every well-formed string that does not begin
    with a byte order mark. *)
Lemma TextDecoder_TextEncoder s :
  well_formed s → head s ≠ Some 0xFEFF → TextDecoder_decode (TextEncoder_encode s) = s.
Proof.
  intros Hwf Hbom. destruct (scalar_values_well_formed s Hwf) as (Hs & Hu & Hb).
  specialize (Hb Hbom). unfold TextDecoder_decode, TextEncoder_encode.
  rewrite bytes_to_of_Z by by apply Forall_bind_bytes.
  rewrite strip_BOM_other.
  - by rewrite utf8_decode_encode_all.
  - destruct Hs as [|c cps Hc Hcps]; [done|].
    intros r. rewrite bind_cons. apply utf8_encode_not_BOM; [done|].
    intros ->. by apply Hb.
Qed.

(** ** The payload codec *)

Lemma importKey_256 keyData : length keyData = 32%nat → importKey keyData = Ok keyData.
Proof. intros H. unfold importKey. rewrite H. reflexivity. Qed.

Lemma split_wire (iv ct : bytes) :
  split ":" (toString_hex iv +:+ ":" +:+ toString_hex ct) = [toString_hex iv; toString_hex ct].
Proof.
  rewrite split_halves, halves_app by apply halves_toString_hex.
  by rewrite split_halves, halves_toString_hex.
Qed.

Lemma decryptPayload_wire (K : string) (iv ct : bytes) :
  SIGNATURE_KEY = Some K → length (Buffer_from_hex K) = 32%nat →
  iv ≠ [] → ct ≠ [] →
  decryptPayload (toString_hex iv +:+ ":" +:+ toString_hex ct)
  = match aes_cbc_decrypt (Buffer_from_hex K) iv ct with
    | Some plaintext => Ok (TextDecoder_decode plaintext)
    | None => Throw OperationError
    end.
Proof.
  intros HK Hlen Hiv Hct. unfold decryptPayload. rewrite split_wire.
  cbn [lookup list_lookup]. rewrite !truthy_toString_hex by done.
  cbn [negb orb default from_option id]. rewrite !Buffer_from_toString_hex, HK.
  destruct K as [|c K]; [done|]. cbn [truthy negb default from_option id].
  rewrite importKey_256 by done. cbn [bind].
  by destruct (aes_cbc_decrypt _ _ _).
Qed.

(** C4 (amended). Codec round trip: for every well-formed plaintext [P]
    (every surrogate paired) that does not begin with U+FEFF, every 256-bit
    key [K] given in hex and every 16-byte iv, [encryptPayload] produces a
    wire string which [decryptPayload], run with the same key, turns back
    into exactly [P]. *)
Theorem decryptPayload_encryptPayload (K : string) (iv : bytes) (P : utf16) :
  AES_CBC_correct →
  SIGNATURE_KEY = Some K →
  length (Buffer_from_hex K) = 32%nat →
  length iv = 16%nat →
  well_formed P →
  head P ≠ Some 0xFEFF →
  ∃ wire, encryptPayload K iv P = Ok wire ∧ decryptPayload wire = Ok P.
Proof.
  intros Haes HK Hlen Hiv Hwf Hbom.
  destruct (Haes (Buffer_from_hex K) iv (TextEncoder_encode P) Hlen Hiv) as [Hinv Hne].
  unfold encryptPayload. rewrite importKey_256 by done. cbn [bind].
  eexists. split; [reflexivity|].
  rewrite (decryptPayload_wire K) by (done || by destruct iv).
  rewrite Hinv. f_equal. by apply TextDecoder_TextEncoder.
Qed.

(** Whatever the cipher, an unpaired surrogate does not survive the trip:
    [TextEncoder] replaces it by U+FFFD. *)
Lemma decryptPayload_encryptPayload_lone_surrogate (K : string) (iv : bytes) :
  AES_CBC_correct →
  SIGNATURE_KEY = Some K →
  length (Buffer_from_hex K) = 32%nat →
  length iv = 16%nat →
  ∃ wire, encryptPayload K iv [0xD800] = Ok wire ∧ decryptPayload wire = Ok [0xFFFD].
Proof.
  intros Haes HK Hlen Hiv.
  destruct (Haes (Buffer_from_hex K) iv (TextEncoder_encode [0xD800]) Hlen Hiv) as [Hinv Hne].
  unfold encryptPayload. rewrite importKey_256 by done. cbn [bind].
  eexists. split; [reflexivity|].
  rewrite (decryptPayload_wire K) by (done || by destruct iv).
  by rewrite Hinv.
Qed.

(** ** The schema *)

Lemma Qred_inject_Z z : Qred (inject_Z z) = inject_Z z.
Proof.
  unfold Qred, inject_Z.
  pose proof (Z.ggcd_correct_divisors z 1) as H.
  pose proof (Z.ggcd_gcd z 1) as G. rewrite Z.gcd_1_r in G.
  destruct (Z.ggcd z 1) as [g [a b]]. cbn in *. subst g.
  destruct H as [Ha Hb]. replace a with z by lia. by replace b with 1 by lia.
Qed.

Lemma Number_isInteger_spec n :
  Number_isInteger n = true ↔ ∃ z, (n == inject_Z z)%Q.
Proof.
  unfold Number_isInteger. rewrite Pos.eqb_eq. split.
  - intros H. exists (Qnum (Qred n)). rewrite <-(Qred_correct n) at 1.
    destruct (Qred n) as [a b]. cbn in H. subst b. reflexivity.
  - intros [z Hz]. apply Qred_complete in Hz. by rewrite Hz, Qred_inject_Z.
Qed.

Lemma integer_value_inject_Z z :
  Number_isInteger (inject_Z z) = true ∧ integer_value (inject_Z z) = z.
Proof.
  unfold Number_isInteger, integer_value. by rewrite Qred_inject_Z.
Qed.

Lemma vmid_schema_accepts v z :
  vmid_schema v = inr z ↔
  ∃ n, v = Some (JNumber n) ∧ Number_isInteger n = true ∧ integer_value n = z
       ∧ 0 < z <= MAX_SAFE_INTEGER.
Proof.
  unfold vmid_schema. split.
  - destruct v as [[| |n| | |]|]; try done.
    destruct (Number_isInteger n) eqn:Hi; [|done]. cbn [negb].
    destruct (Z.ltb_spec MAX_SAFE_INTEGER (integer_value n)); [done|].
    destruct (Z.ltb_spec (integer_value n) (- MAX_SAFE_INTEGER)); [done|].
    destruct (Z.leb_spec (integer_value n) 0); [done|].
    intros [= <-]. exists n. repeat split; done || lia.
  - intros (n & -> & -> & <- & H0 & Hmax). cbn [negb].
    destruct (Z.ltb_spec MAX_SAFE_INTEGER (integer_value n)); [lia|].
    destruct (Z.ltb_spec (integer_value n) (- MAX_SAFE_INTEGER));
      [unfold MAX_SAFE_INTEGER in *; lia|].
    destruct (Z.leb_spec (integer_value n) 0); [lia|done].
Qed.

Lemma type_schema_accepts v t :
  type_schema v = inr t ↔ v = Some (JString (guest_type_text t)).
Proof.
  unfold type_schema. split.
  - destruct v as [[| | |s| |]|]; try done.
    destruct (String.eqb_spec s "qemu") as [->|]; [by intros [= <-]|].
    destruct (String.eqb_spec s "lxc") as [->|]; [by intros [= <-]|done].
  - intros ->. by destruct t.
Qed.

Lemma hostname_schema_accepts key v s :
  hostname_schema key v = inr s ↔ v = Some (JString s) ∧ hostname_pattern s = true.
Proof.
  unfold hostname_schema. split.
  - destruct v as [[| | |s'| |]|]; try done.
    destruct (hostname_pattern s') eqn:E; [|done]. by intros [= <-].
  - by intros [-> ->].
Qed.

Lemma string_schema_accepts key v s :
  string_schema key v = inr s ↔ v = Some (JString s).
Proof.
  unfold string_schema. split.
  - destruct v as [[| | |s'| |]|]; try done. by intros [= <-].
  - by intros ->.
Qed.

Lemma port_schema_accepts v p :
  port_schema v = inr p ↔
  v = Some match p with
           | PortString s => JString s
           | PortNumber n => JNumber n
           end.
Proof.
  unfold port_schema. split.
  - destruct v as [[| |n|s| |]|]; try done; by intros [= <-].
  - intros ->. by destruct p.
Qed.

(** A field schema that fails raises at least one issue. *)
Lemma field_issues :
  (∀ v i, vmid_schema v = inl i → i ≠ []) ∧
  (∀ v i, type_schema v = inl i → i ≠ []) ∧
  (∀ k v i, hostname_schema k v = inl i → i ≠ []) ∧
  (∀ k v i, string_schema k v = inl i → i ≠ []) ∧
  (∀ v i, port_schema v = inl i → i ≠ []).
Proof.
  unfold vmid_schema, type_schema, hostname_schema, string_schema, port_schema.
  split_and!; intros; repeat case_match; by simplify_eq.
Qed.

Lemma websocketDataSchema_Ok_iff (input : json) (d : WebSocketData) :
  websocketDataSchema input = Ok d ↔ schema_accepts input d.
Proof.
  split.
  - destruct input as [| | | | |members]; try done.
    unfold websocketDataSchema; cbv zeta.
    destruct (vmid_schema _) as [|z] eqn:E1; [done|].
    destruct (type_schema _) as [|t] eqn:E2; [done|].
    destruct (hostname_schema "host" _) as [|h] eqn:E3; [done|].
    destruct (hostname_schema "node" _) as [|n] eqn:E4; [done|].
    destruct (string_schema "ticket" _) as [|tk] eqn:E5; [done|].
    destruct (string_schema "vncticket" _) as [|vt] eqn:E6; [done|].
    destruct (port_schema _) as [|p] eqn:E7; [done|].
    intros [= <-]. exists members. cbn [vmid type host node ticket vncticket port].
    apply vmid_schema_accepts in E1. apply type_schema_accepts in E2.
    apply hostname_schema_accepts in E3, E4. apply string_schema_accepts in E5, E6.
    apply port_schema_accepts in E7. done.
  - intros (members & -> & H1 & H2 & H3 & H4 & H5 & H6 & H7).
    unfold websocketDataSchema; cbv zeta.
    apply vmid_schema_accepts in H1. apply type_schema_accepts in H2.
    apply (hostname_schema_accepts "host") in H3. apply (hostname_schema_accepts "node") in H4.
    apply (string_schema_accepts "ticket") in H5. apply (string_schema_accepts "vncticket") in H6.
    apply port_schema_accepts in H7.
    rewrite H1, H2, H3, H4, H5, H6, H7. by destruct d.
Qed.

Lemma websocketDataSchema_Throw (input : json) (e : exn) :
  websocketDataSchema input = Throw e → ∃ issues, e = ZodError issues ∧ issues ≠ [].
Proof.
  destruct field_issues as (I1 & I2 & I3 & I4 & I5).
  destruct input as [| | | | |members];
    try (intros [= <-]; eexists; split; [reflexivity|done]).
  unfold websocketDataSchema; cbv zeta.
  destruct (vmid_schema _) as [i1|z] eqn:E1;
  destruct (type_schema _) as [i2|t] eqn:E2;
  destruct (hostname_schema "host" _) as [i3|h] eqn:E3;
  destruct (hostname_schema "node" _) as [i4|n] eqn:E4;
  destruct (string_schema "ticket" _) as [i5|tk] eqn:E5;
  destruct (string_schema "vncticket" _) as [i6|vt] eqn:E6;
  destruct (port_schema _) as [i7|p] eqn:E7;
    intros [= <-]; (eexists; split; [reflexivity|]); cbn [issues_of];
    repeat match goal with
    | H : vmid_schema _ = inl _ |- _ => apply I1 in H
    | H : type_schema _ = inl _ |- _ => apply I2 in H
    | H : hostname_schema _ _ = inl _ |- _ => apply I3 in H
    | H : string_schema _ _ = inl _ |- _ => apply I4 in H
    | H : port_schema _ = inl _ |- _ => apply I5 in H
    end;
    intros Happ; repeat (apply app_eq_nil in Happ as [? Happ]); done.
Qed.

(** C2 (amended). The validator accepts a parsed payload exactly when it is
    an object in which [vmid] is an integer with 0 < vmid <= 2^53 - 1, [type]
    is qemu or lxc, [host] and [node] match the hostname pattern, [ticket] and
    [vncticket] are strings and [port] is any string or any number; the
    output then holds these seven values. Every other payload is rejected
    as a whole, with a ZodError that lists at least one issue. *)
Theorem websocketDataSchema_accepts_iff (input : json) :
  (∀ d, websocketDataSchema input = Ok d ↔ schema_accepts input d)
  ∧ (∀ e, websocketDataSchema input = Throw e → ∃ issues, e = ZodError issues ∧ issues ≠ []).
Proof.
  split; [intros d; apply websocketDataSchema_Ok_iff|intros e; apply websocketDataSchema_Throw].
Qed.

(** ** The upstream URL and the authorization header *)

Lemma prefix_starts_with p s : String.prefix p s = true ↔ starts_with p s.
Proof.
  unfold starts_with. revert s. induction p as [|c p IH]; intros s.
  - split; [intros _; by exists s|intros _; by destruct s].
  - destruct s as [|c' s]; cbn [String.prefix].
    + split; [done|]. by intros [rest [=]].
    + destruct (Ascii.ascii_dec c c') as [->|Hne].
      * rewrite IH. split; intros [rest Hr]; exists rest.
        -- by rewrite Hr.
        -- by injection Hr.
      * split; [done|]. intros [rest [= ? ?]]. by destruct Hne.
Qed.

Lemma substring_all s : String.substring 0 (String.length s) s = s.
Proof. induction s as [|c s IH]; [reflexivity|]. cbn. by rewrite IH. Qed.

Lemma new_URL_wss h :
  new_URL ("wss://" +:+ h)
  = match host_parser h with
    | Some h' => Ok {| protocol := "wss:"; hostname := h'; pathname := "/"; searchParams := [] |}
    | None => Throw TypeError
    end.
Proof.
  unfold new_URL.
  rewrite (proj2 (prefix_starts_with "wss://" _)) by by exists h.
  change ("wss://" +:+ h)
    with (String "w" (String "s" (String "s" (String ":" (String "/" (String "/" h)))))).
  cbn [String.length String.substring Nat.sub].
  by rewrite Nat.sub_0_r, substring_all.
Qed.


Lemma websocketDataSchema_validated input d :
  websocketDataSchema input = Ok d → validated d.
Proof.
  intros H. apply websocketDataSchema_Ok_iff in H.
  destruct H as (members & _ & (n & _ & _ & _ & Hv) & _ & (_ & Hh) & (_ & Hn) & _).
  done.
Qed.


(** C8. The authorization header of the upstream connection is the ticket
    itself when the ticket starts with [PVEAPIToken=], and otherwise the
    ticket wrapped as [PVEAuthCookie=<ticket>]; the [open] handler passes
    exactly this value to the upstream socket it creates. *)
Theorem authorization_by_prefix (ticket_text : string) :
  (starts_with "PVEAPIToken=" ticket_text → authorization ticket_text = ticket_text)
  ∧ (¬ starts_with "PVEAPIToken=" ticket_text →
     authorization ticket_text = "PVEAuthCookie=" +:+ ticket_text)
  ∧ (∀ σ ws c url, clients σ !! ws = Some c → ticket (data c) = ticket_text →
       constructWebsocketUrl (data c) = Ok url →
       (websocket_open σ ws).2
       = [NewWebSocket (fresh (dom (upstreams σ))) url (authorization ticket_text)]).
Proof.
  unfold authorization. split_and!.
  - intros H. apply prefix_starts_with in H. by rewrite H.
  - intros H. destruct (String.prefix _ _) eqn:E; [|done].
    by apply prefix_starts_with in E.
  - intros σ ws c url Hc Ht Hu. unfold websocket_open. by rewrite Hc, Hu, Ht.
Qed.

(** ** Requests *)

Lemma decryptPayload_malformed payload :
  malformed payload = true → decryptPayload payload = Throw (Error "Payload is malformed").
Proof.
  unfold malformed, decryptPayload. rewrite split_halves.
  destruct (halves payload) as [[a b]|]; cbn [lookup list_lookup].
  - intros [Ha|Hb]%orb_true_iff.
    + apply String.eqb_eq in Ha as ->. reflexivity.
    + apply String.eqb_eq in Hb as ->. cbn [split lookup list_lookup truthy negb].
      by rewrite orb_true_r.
  - intros _. cbn [truthy negb]. by rewrite orb_true_r.
Qed.

(** C1 (amended). An upgrade request whose [payload] parameter is present
    but malformed (no separator, or nothing on one side of it) is rejected
    with HTTP 500 and the generic body "Internal server error": no client
    connection is created and the registry is left as it was. Status 400 is
    returned only when the parameter is missing or empty, or when the
    decrypted JSON fails the schema. *)
Theorem malformed_payload_rejected_with_500 (σ : server) (payload : string) :
  payload ≠ "" →
  malformed payload = true →
  step σ (HttpRequest (Request "GET" (Some payload)))
  = (σ, [Respond 500 (ErrorBody "Internal server error" 500 [])])
  ∧ ∀ r body, fetch r = Response 400 body →
      (truthy (payload_param r) = false ∧ body = ErrorBody "Missing payload" 400 [])
      ∨ ∃ text j found,
          decryptPayload (default "" (payload_param r)) = Ok text
          ∧ JSON_parse text = Some j
          ∧ websocketDataSchema j = Throw (ZodError found)
          ∧ body = ErrorBody "Invalid payload" 400 found.
Proof.
  intros Hne Hmal. split.
  - cbn [step]. unfold fetch. cbn [method payload_param String.eqb negb].
    destruct payload as [|c payload]; [done|]. cbn [truthy negb default from_option id].
    by rewrite decryptPayload_malformed.
  - intros r body. unfold fetch.
    destruct (String.eqb (method r) "GET"); cbn [negb]; [|done].
    destruct (truthy (payload_param r)); cbn [negb]; [|intros [= <-]; by left].
    destruct (decryptPayload _) as [text|e] eqn:Hd; cbn [bind].
    + destruct (JSON_parse text) as [j|] eqn:Hj; cbn [bind]; [|done].
      destruct (websocketDataSchema j) as [d|e] eqn:Hs; cbn [bind]; [done|].
      destruct e; try done. intros [= <-]. right. by exists text, j, issues0.
    + unfold decryptPayload in Hd. repeat case_match; simplify_eq; try done.
      all: unfold importKey, bind in *; repeat case_match; simplify_eq.
Qed.

(** ** The relay *)

Lemma client_gone_open σ ws c code reason :
  clients σ !! ws = Some c → client_open c = true →
  client_gone σ ws code reason
  = match sockets σ !! vmid (data c) with
    | Some socket =>
        if close_accepts code reason then
          (Server (delete (vmid (data c)) (sockets σ))
                  (<[ws := Client (data c) false]> (clients σ))
                  (alter closing socket (upstreams σ)),
           [UpstreamClose socket code reason])
        else
          (Server (sockets σ) (<[ws := Client (data c) false]> (clients σ)) (upstreams σ), [])
    | None =>
        (Server (sockets σ) (<[ws := Client (data c) false]> (clients σ)) (upstreams σ), [])
    end.
Proof.
  intros Hc Ho. unfold client_gone, websocket_close. rewrite Hc, Ho.
  cbn [clients sockets upstreams]. rewrite lookup_insert_eq. cbn [data].
  destruct (sockets σ !! vmid (data c)); [|done]. by destruct (close_accepts code reason).
Qed.

Lemma client_gone_sockets σ ws c code reason :
  clients σ !! ws = Some c → client_open c = true →
  (is_Some (sockets σ !! vmid (data c)) → close_accepts code reason = true) →
  sockets (client_gone σ ws code reason).1 = delete (vmid (data c)) (sockets σ).
Proof.
  intros Hc Ho Ha. rewrite (client_gone_open _ _ c) by done.
  destruct (sockets σ !! vmid (data c)) eqn:E; cbn [fst sockets].
  - by rewrite Ha by eauto.
  - by rewrite delete_id.
Qed.

(** C3 (amended). When the client connection of a session closes with a
    code and reason that [close] on an upstream socket accepts, the [close]
    handler removes the registry entry of the session's guest whenever there
    is one, whichever upstream connection it names, and closes that
    connection with the client's code and reason; the entries of all other
    guests stay, and with no entry the registry is unchanged whatever the
    code. *)
Theorem close_removes_registered_upstream
    (σ : server) (ws : nat) (c : client) (code : Z) (reason : string) :
  clients σ !! ws = Some c →
  client_open c = true →
  (is_Some (sockets σ !! vmid (data c)) → close_accepts code reason = true) →
  sockets (step σ (ClientClosed ws code reason)).1 = delete (vmid (data c)) (sockets σ)
  ∧ (step σ (ClientClosed ws code reason)).2
    = match sockets σ !! vmid (data c) with
      | Some socket => [UpstreamClose socket code reason]
      | None => []
      end.
Proof.
  intros Hc Ho Ha. cbn [step]. split; [by apply client_gone_sockets|].
  rewrite (client_gone_open _ _ c) by done.
  destruct (sockets σ !! vmid (data c)); [|done]. by rewrite Ha by eauto.
Qed.

(** X24. When the upstream connection of an active session closes with a
    code that [close] on an upstream socket accepts, the relay closes the
    client connection with that same code and the fixed reason
    "Upstream websocket closed", and afterwards the registry has no entry for
    the session's guest. *)
Theorem upstream_close_closes_client_and_unregisters
    (σ : server) (pws : nat) (u : upstream) (c : client) (code : Z) :
  upstreams σ !! pws = Some u →
  readyState u = OPEN →
  clients σ !! owner u = Some c →
  client_open c = true →
  close_accepts code "Upstream websocket closed" = true →
  ∃ σ' calls,
    step σ (UpstreamClosed pws code)
    = (σ', ClientClose (owner u) code "Upstream websocket closed" :: calls)
    ∧ sockets σ' !! vmid (data c) = None
    ∧ client_open <$> clients σ' !! owner u = Some false.
Proof.
  intros Hu Hr Hc Ho Ha. cbn [step]. unfold pws_close, ws_close. rewrite Hu, Hr.
  rewrite (client_gone_open _ _ c) by done. rewrite Ha.
  cbn [sockets clients upstreams set_readyState].
  destruct (sockets σ !! vmid (data c)) as [socket|] eqn:E; eexists _, _;
    (split; [reflexivity|]); cbn [sockets clients];
    rewrite lookup_insert_eq; split; try done.
  apply lookup_delete_eq.
Qed.

(** What the relay does when the registered upstream connection of an
    active session closes, with any code: the client connection is closed
    with that same code and the fixed reason "Upstream websocket closed";
    the registry entry of the session's guest is removed when [close] on
    the upstream socket accepts the code, and stays, naming the closed
    socket, when that call throws. *)
Lemma upstream_close_with_any_code
    (σ : server) (pws : nat) (u : upstream) (c : client) (code : Z) :
  upstreams σ !! pws = Some u →
  readyState u = OPEN →
  clients σ !! owner u = Some c →
  client_open c = true →
  sockets σ !! vmid (data c) = Some pws →
  ∃ σ' calls,
    step σ (UpstreamClosed pws code)
    = (σ', ClientClose (owner u) code "Upstream websocket closed" :: calls)
    ∧ client_open <$> clients σ' !! owner u = Some false
    ∧ readyState <$> upstreams σ' !! pws = Some CLOSED
    ∧ sockets σ' !! vmid (data c)
      = if close_accepts code "Upstream websocket closed" then None else Some pws.
Proof.
  intros Hu Hr Hc Ho Hs. cbn [step]. unfold pws_close, ws_close. rewrite Hu, Hr.
  rewrite (client_gone_open _ _ c) by done.
  cbn [sockets clients upstreams set_readyState]. rewrite Hs.
  destruct (close_accepts code "Upstream websocket closed"); eexists _, _;
    (split; [reflexivity|]); cbn [sockets clients upstreams];
    rewrite lookup_insert_eq; split_and!; try done.
  - rewrite !lookup_alter_eq, Hu. cbn. unfold closing. done.
  - apply lookup_delete_eq.
  - by rewrite lookup_alter_eq, Hu.
Qed.

(** C6. The registry holds at most one upstream connection per guest in
    every state the server can reach. Registration, done by the "open"
    listener of an upstream socket, overwrites whatever entry the guest had:
    afterwards the guest's entry is the new socket, no call is made on any
    connection (the replaced one is not closed and keeps its state), and the
    entries of other guests are unchanged. *)
Theorem registry_last_open_wins
    (σ : server) (pws : nat) (u : upstream) (c : client) :
  upstreams σ !! pws = Some u →
  readyState u = CONNECTING →
  clients σ !! owner u = Some c →
  (∀ es v p q,
     (v, p) ∈ map_to_list (sockets (run σ es).1) →
     (v, q) ∈ map_to_list (sockets (run σ es).1) → p = q)
  ∧ ∃ σ', step σ (UpstreamOpened pws) = (σ', [])
    ∧ sockets σ' = <[vmid (data c) := pws]> (sockets σ)
    ∧ (∀ other, other ≠ pws → upstreams σ' !! other = upstreams σ !! other)
    ∧ clients σ' = clients σ.
Proof.
  intros Hu Hr Hc. split.
  - intros es v p q Hp%elem_of_map_to_list Hq%elem_of_map_to_list. congruence.
  - cbn [step]. unfold pws_open. rewrite Hu, Hr, Hc.
    eexists. split; [reflexivity|]. cbn [sockets clients upstreams set_readyState].
    split_and!; try done. intros other Hne. by rewrite lookup_alter_ne.
Qed.

(** C9. A client frame is forwarded to the upstream socket found in the
    registry under the client's guest identifier when the frame arrives.
    So once the upstream of a second session for the same guest has opened
    and registered, a frame of the first session's client goes to the
    second session's upstream socket. *)
Theorem message_goes_to_registered_upstream
    (σ : server) (ws1 : nat) (c1 : client) (pws2 : nat) (u2 : upstream) (c2 : client)
    (m : frame) :
  clients σ !! ws1 = Some c1 →
  upstreams σ !! pws2 = Some u2 →
  readyState u2 = CONNECTING →
  clients σ !! owner u2 = Some c2 →
  vmid (data c2) = vmid (data c1) →
  (∀ socket, sockets σ !! vmid (data c1) = Some socket →
     step σ (ClientMessage ws1 m) = (σ, [UpstreamSend socket m]))
  ∧ (run σ [UpstreamOpened pws2; ClientMessage ws1 m]).2 = [UpstreamSend pws2 m].
Proof.
  intros Hc1 Hu2 Hr2 Hc2 Hv. split.
  - intros socket Hs. cbn [step]. unfold websocket_message. by rewrite Hc1, Hs.
  - cbn [run step]. unfold pws_open. rewrite Hu2, Hr2, Hc2.
    unfold websocket_message. cbn [sockets clients upstreams set_readyState].
    by rewrite Hc1, Hv, lookup_insert_eq.
Qed.

Lemma client_gone_adds_no_entry σ ws code reason v p :
  sockets (client_gone σ ws code reason).1 !! v = Some p → sockets σ !! v = Some p.
Proof.
  unfold client_gone.
  destruct (clients σ !! ws) as [c|] eqn:Hc; [|done].
  destruct (client_open c) eqn:Ho; [|done].
  unfold websocket_close. cbn [clients sockets upstreams].
  rewrite lookup_insert_eq. cbn [data].
  destruct (sockets σ !! vmid (data c)); cbn [fst sockets]; [|done].
  destruct (close_accepts code reason); cbn [fst sockets]; [|done].
  rewrite lookup_delete_Some. by intros [_ ?].
Qed.

Lemma ws_close_sockets σ ws code reason v p :
  sockets (ws_close σ ws code reason).1 !! v = Some p → sockets σ !! v = Some p.
Proof.
  unfold ws_close. pose proof (client_gone_adds_no_entry σ ws code reason v p) as H.
  by destruct (client_gone σ ws code reason).
Qed.

(** Every step but the "open" of an upstream socket leaves the registry
    without new entries. *)
Lemma step_adds_no_entry σ e v p :
  (∀ pws, e ≠ UpstreamOpened pws) →
  sockets (step σ e).1 !! v = Some p → sockets σ !! v = Some p.
Proof.
  intros He. destruct e as [r|ws m|ws code reason|pws|pws m|pws|pws code]; cbn [step].
  - unfold websocket_open. repeat case_match; by simplify_eq.
  - unfold websocket_message. repeat case_match; simplify_eq; try done.
    apply ws_close_sockets.
  - apply client_gone_adds_no_entry.
  - by destruct (He pws).
  - unfold pws_message. repeat case_match; by simplify_eq.
  - unfold pws_error. repeat case_match; simplify_eq; try done; apply ws_close_sockets.
  - unfold pws_close. repeat case_match; simplify_eq; try done;
      by intros ?%ws_close_sockets.
Qed.

Lemma extends_refl σ : extends σ σ.
Proof. split; eauto. Qed.

Lemma extends_trans σ1 σ2 σ3 : extends σ1 σ2 → extends σ2 σ3 → extends σ1 σ3.
Proof.
  intros [C12 U12] [C23 U23]. split.
  - intros ws c H. destruct (C12 _ _ H) as (c' & H' & E).
    destruct (C23 _ _ H') as (c'' & H'' & E'). exists c''. split; congruence.
  - intros p u H. destruct (U12 _ _ H) as (u' & H' & E & R).
    destruct (U23 _ _ H') as (u'' & H'' & E' & R'). exists u''. split_and!; auto; congruence.
Qed.

Lemma extends_alter_upstream σ f p :
  (∀ u, owner (f u) = owner u ∧ (readyState u ≠ CONNECTING → readyState (f u) ≠ CONNECTING)) →
  extends σ (Server (sockets σ) (clients σ) (alter f p (upstreams σ))).
Proof.
  intros Hf. split; cbn [clients upstreams]; [eauto|].
  intros q u H. destruct (decide (p = q)) as [->|Hne].
  - exists (f u). rewrite lookup_alter_eq, H. split; [done|apply Hf].
  - exists u. by rewrite lookup_alter_ne.
Qed.

Lemma extends_consistent σ σ' :
  extends σ σ' → consistent σ →
  (∀ v p, sockets σ' !! v = Some p → sockets σ !! v = Some p) → consistent σ'.
Proof.
  intros [HC HU] Hσ Hsub v p Hp. destruct (Hσ v p (Hsub _ _ Hp)) as (u & c & H1 & H2 & H3 & H4).
  destruct (HU _ _ H1) as (u' & H1' & Ho & Hr). rewrite <-Ho in H3.
  destruct (HC _ _ H3) as (c' & H3' & Hd). exists u', c'. split_and!; auto; congruence.
Qed.

Lemma client_gone_extends σ ws code reason :
  extends σ (client_gone σ ws code reason).1.
Proof.
  unfold client_gone.
  destruct (clients σ !! ws) as [c|] eqn:Hc; [|apply extends_refl].
  destruct (client_open c); [|apply extends_refl].
  unfold websocket_close. cbn [clients sockets upstreams]. rewrite lookup_insert_eq.
  assert (extends σ (Server (sockets σ) (<[ws:=Client (data c) false]> (clients σ)) (upstreams σ)))
    as Hins.
  { split; cbn [clients upstreams]; [|eauto].
    intros ws' c' H. destruct (decide (ws = ws')) as [->|Hne].
    - rewrite lookup_insert_eq. eexists. split; [done|]. cbn. congruence.
    - rewrite lookup_insert_ne by done. eauto. }
  cbn [data]. destruct (sockets σ !! vmid (data c)) as [socket|]; cbn [fst]; [|done].
  destruct (close_accepts code reason); cbn [fst]; [|done].
  eapply extends_trans; [exact Hins|]. split; cbn [clients upstreams]; [eauto|].
  intros q u H. destruct (decide (socket = q)) as [->|Hne].
  - exists (closing u). rewrite lookup_alter_eq, H. split; [done|].
    unfold closing. destruct (readyState u) eqn:E; cbn; rewrite ?E; split; congruence.
  - exists u. by rewrite lookup_alter_ne.
Qed.

Lemma ws_close_extends σ ws code reason : extends σ (ws_close σ ws code reason).1.
Proof.
  unfold ws_close. pose proof (client_gone_extends σ ws code reason) as H.
  by destruct (client_gone σ ws code reason).
Qed.

Lemma websocket_open_extends σ ws : extends σ (websocket_open σ ws).1.
Proof.
  unfold websocket_open.
  destruct (clients σ !! ws) as [c|]; [|apply extends_refl].
  destruct (constructWebsocketUrl (data c)); [|apply extends_refl].
  split; cbn [fst clients upstreams]; [eauto|].
  intros p u H. exists u. split; [|done].
  rewrite lookup_insert_ne; [done|]. intros <-.
  apply (is_fresh (dom (upstreams σ))), elem_of_dom. eauto.
Qed.

Lemma step_extends σ e : extends σ (step σ e).1.
Proof.
  destruct e as [r|ws m|ws code reason|pws|pws m|pws|pws code]; cbn [step].
  - destruct (fetch r) as [status body|d]; [apply extends_refl|].
    eapply extends_trans; [|apply websocket_open_extends].
    split; cbn [clients upstreams]; [|eauto].
    intros ws c H. exists c. split; [|done].
    rewrite lookup_insert_ne; [done|]. intros <-.
    apply (is_fresh (dom (clients σ))), elem_of_dom. eauto.
  - unfold websocket_message. repeat case_match; try apply extends_refl.
    apply ws_close_extends.
  - apply client_gone_extends.
  - unfold pws_open. repeat case_match; try apply extends_refl. cbn [fst].
    unfold set_readyState. cbn [sockets clients upstreams].
    pose proof (extends_alter_upstream σ (λ u, Upstream (owner u) OPEN) pws) as [HC HU]; [done|].
    split; cbn [clients upstreams] in *; done.
  - unfold pws_message. repeat case_match; apply extends_refl.
  - unfold pws_error. repeat case_match; try apply extends_refl; apply ws_close_extends.
  - unfold pws_close. repeat case_match; try apply extends_refl;
      (eapply extends_trans; [|apply ws_close_extends]);
      by apply extends_alter_upstream.
Qed.

Lemma step_consistent σ e : consistent σ → consistent (step σ e).1.
Proof.
  intros Hσ.
  assert ((∀ pws, e ≠ UpstreamOpened pws) → consistent (step σ e).1) as Hother.
  { intros Hne. apply (extends_consistent σ); [apply step_extends|done|].
    intros v p. by apply step_adds_no_entry. }
  destruct e as [r|ws m|ws code reason|pws|pws m|pws|pws code]; try by apply Hother.
  clear Hother. pose proof (step_extends σ (UpstreamOpened pws)) as Hext.
  cbn [step] in *. unfold pws_open in *.
  destruct (upstreams σ !! pws) as [u|] eqn:Hu; [|done].
  destruct (readyState u) eqn:Hr; try done.
  destruct (clients σ !! owner u) as [c|] eqn:Hc; [|done].
  cbn [fst] in *. intros v p. cbn [sockets clients upstreams set_readyState].
  destruct (decide (vmid (data c) = v)) as [<-|Hv].
  - rewrite lookup_insert_eq. intros [= <-].
    exists (Upstream (owner u) OPEN), c. by rewrite lookup_alter_eq, Hu.
  - rewrite lookup_insert_ne by done. intros Hp.
    destruct (Hσ v p Hp) as (u' & c' & H1 & H2 & H3 & H4).
    destruct Hext as [HC HU]. cbn [clients upstreams set_readyState] in *.
    destruct (HU _ _ H1) as (u'' & H1' & Ho & Hr'). rewrite <-Ho in H3.
    exists u'', c'. split_and!; auto.
Qed.

(** In every state the server reaches from its initial state, each registry
    entry names an upstream socket that has opened for a client of that
    guest. *)
Lemma run_consistent σ es : consistent σ → consistent (run σ es).1.
Proof.
  revert σ. induction es as [|e es IH]; intros σ Hσ; [done|].
  cbn [run]. pose proof (step_consistent σ e Hσ) as H1. specialize (IH (step σ e).1 H1).
  destruct (step σ e) as [σ1 calls1]. cbn [fst] in IH. by destruct (run σ1 es).
Qed.

Lemma initial_consistent : consistent initial.
Proof. intros v p H. cbn in H. by rewrite lookup_empty in H. Qed.

Corollary reachable_consistent es : consistent (run initial es).1.
Proof. apply run_consistent, initial_consistent. Qed.

(** C10 (amended). Registry entries are created only by the "open" event
    of an upstream socket: no other event adds one. Hence a frame of a
    client whose guest has no entry, as when the session's own upstream is
    still connecting, is not forwarded: the relay closes the client with
    code 1011 and reason "Upstream websocket not found", and the client
    connection is closed from then on. The upstream side of the session does
    not end with it: the relay makes no call on the connecting socket, and
    when that socket opens afterwards its "open" event creates the guest's
    entry all the same, naming a socket whose client is gone. *)
Theorem early_message_closes_client
    (σ : server) (ws : nat) (c : client) (m : frame) :
  clients σ !! ws = Some c →
  client_open c = true →
  sockets σ !! vmid (data c) = None →
  (∀ e v p, (∀ pws, e ≠ UpstreamOpened pws) →
     sockets (step σ e).1 !! v = Some p → sockets σ !! v = Some p)
  ∧ step σ (ClientMessage ws m)
    = (Server (sockets σ) (<[ws := Client (data c) false]> (clients σ)) (upstreams σ),
       [ClientClose ws 1011 "Upstream websocket not found"])
  ∧ ∀ pws u, upstreams σ !! pws = Some u → owner u = ws → readyState u = CONNECTING →
      run σ [ClientMessage ws m; UpstreamOpened pws]
      = (Server (<[vmid (data c) := pws]> (sockets σ))
                (<[ws := Client (data c) false]> (clients σ))
                (alter (λ u, Upstream (owner u) OPEN) pws (upstreams σ)),
         [ClientClose ws 1011 "Upstream websocket not found"]).
Proof.
  intros Hc Ho Hs.
  assert (step σ (ClientMessage ws m)
          = (Server (sockets σ) (<[ws := Client (data c) false]> (clients σ)) (upstreams σ),
             [ClientClose ws 1011 "Upstream websocket not found"])) as Hstep.
  { cbn [step]. unfold websocket_message, ws_close. rewrite Hc, Hs.
    rewrite (client_gone_open _ _ c) by done. by rewrite Hs. }
  split_and!; [intros e v p; apply step_adds_no_entry|exact Hstep|].
  intros pws u Hu Hown Hr. cbn [run]. rewrite Hstep. cbn [step].
  unfold pws_open. cbn [upstreams clients sockets set_readyState].
  rewrite Hu, Hr, Hown, lookup_insert_eq. reflexivity.
Qed.

(** ** Further properties of [fetch] *)

Lemma decryptPayload_not_ZodError payload found :
  decryptPayload payload ≠ Throw (ZodError found).
Proof.
  unfold decryptPayload, importKey, bind. repeat case_match; congruence.
Qed.

Lemma truthy_Some (o : option string) :
  truthy o = true ↔ ∃ s, o = Some s ∧ s ≠ "".
Proof.
  split.
  - destruct o as [[|c s]|]; try done. intros _. by eexists.
  - intros (s & -> & Hs). by destruct s.
Qed.

(** X1. [fetch] upgrades a request exactly when its method is GET, its
    payload parameter is present and not empty, and decryption, JSON parsing
    and schema validation all succeed; the data attached to the connection is
    the output of the schema. *)
Theorem fetch_upgrades_iff (r : request) (d : WebSocketData) :
  fetch r = Upgrade d ↔
  method r = "GET"
  ∧ ∃ payload text j,
      payload_param r = Some payload ∧ payload ≠ ""
      ∧ decryptPayload payload = Ok text
      ∧ JSON_parse text = Some j
      ∧ websocketDataSchema j = Ok d.
Proof.
  unfold fetch. split.
  - destruct (String.eqb_spec (method r) "GET") as [Hm|]; cbn [negb]; [|done].
    destruct (truthy (payload_param r)) eqn:Ht; cbn [negb]; [|done].
    apply truthy_Some in Ht as (payload & Hp & Hne). rewrite Hp. cbn [default from_option id].
    destruct (decryptPayload payload) as [text|e] eqn:Hd; cbn [bind]; [|by destruct e].
    destruct (JSON_parse text) as [j|] eqn:Hj; cbn [bind]; [|done].
    destruct (websocketDataSchema j) as [d'|e] eqn:Hs; cbn [bind]; [|by destruct e].
    intros [= <-]. split; [done|]. by exists payload, text, j.
  - intros (Hm & payload & text & j & Hp & Hne & Hd & Hj & Hs).
    rewrite Hm, Hp. change (String.eqb "GET" "GET") with true. cbn [negb].
    rewrite (proj2 (truthy_Some (Some payload))) by eauto.
    cbn [negb default from_option id]. rewrite Hd. cbn [bind]. rewrite Hj. cbn [bind].
    by rewrite Hs.
Qed.

(** X2. [fetch] answers 500 exactly when a GET request carries a payload
    that cannot be decrypted or whose plaintext is not JSON; the body is
    always the same generic one, so no detail of the failure reaches the
    client. *)
Theorem fetch_internal_error_iff (r : request) (body : error_body) :
  fetch r = Response 500 body ↔
  body = ErrorBody "Internal server error" 500 []
  ∧ method r = "GET"
  ∧ ∃ payload,
      payload_param r = Some payload ∧ payload ≠ ""
      ∧ ((∃ e, decryptPayload payload = Throw e)
         ∨ (∃ text, decryptPayload payload = Ok text ∧ JSON_parse text = None)).
Proof.
  unfold fetch. split.
  - destruct (String.eqb_spec (method r) "GET") as [Hm|]; cbn [negb]; [|done].
    destruct (truthy (payload_param r)) eqn:Ht; cbn [negb]; [|done].
    apply truthy_Some in Ht as (payload & Hp & Hne). rewrite Hp. cbn [default from_option id].
    destruct (decryptPayload payload) as [text|e] eqn:Hd; cbn [bind].
    + destruct (JSON_parse text) as [j|] eqn:Hj; cbn [bind].
      * destruct (websocketDataSchema j) as [d'|e] eqn:Hs; cbn [bind]; [done|].
        apply websocketDataSchema_Throw in Hs as (found & -> & _). done.
      * intros [= <-]. split_and!; try done. exists payload. split_and!; eauto.
    + destruct e; intros [= <-]; split_and!; try done; exists payload; split_and!; eauto.
  - intros (-> & Hm & payload & Hp & Hne & Hfail).
    rewrite Hm, Hp. change (String.eqb "GET" "GET") with true. cbn [negb].
    rewrite (proj2 (truthy_Some (Some payload))) by eauto.
    cbn [negb default from_option id].
    destruct Hfail as [[e Hd]|(text & Hd & Hj)]; rewrite Hd; cbn [bind].
    + destruct e; try done. by destruct (decryptPayload_not_ZodError payload issues0).
    + by rewrite Hj.
Qed.

(** X3. The method is checked before anything else: a request that is not a
    GET is answered 405 whatever its payload, and a GET without a payload
    (or with an empty one) is answered 400 "Missing payload". Every response
    of [fetch] has status 400, 405 or 500, and its body repeats the status. *)
Theorem fetch_response_codes (r : request) :
  (method r ≠ "GET" →
   fetch r = Response 405 (ErrorBody "Method not allowed. Supported methods: GET" 405 []))
  ∧ (method r = "GET" → truthy (payload_param r) = false →
     fetch r = Response 400 (ErrorBody "Missing payload" 400 []))
  ∧ (∀ status body, fetch r = Response status body →
       code body = status ∧ (status = 400 ∨ status = 405 ∨ status = 500)).
Proof.
  unfold fetch. split_and!.
  - intros Hm. by destruct (String.eqb_spec (method r) "GET").
  - intros Hm Ht. by rewrite Hm, Ht.
  - intros status body.
    destruct (String.eqb (method r) "GET"); cbn [negb]; [|intros [= <- <-]; auto].
    destruct (truthy (payload_param r)); cbn [negb]; [|intros [= <- <-]; auto].
    destruct (decryptPayload _) as [text|e]; cbn [bind].
    + destruct (JSON_parse text) as [j|]; cbn [bind]; [|intros [= <- <-]; auto].
      destruct (websocketDataSchema j) as [d'|e]; cbn [bind]; [done|].
      destruct e; intros [= <- <-]; auto.
    + destruct e; intros [= <- <-]; auto.
Qed.

(** X4. [fetch] answers 400 "Invalid payload" exactly when a GET request
    carries a payload that decrypts to JSON text which the schema rejects;
    the body then carries the issues the schema found, unchanged. *)
Theorem fetch_invalid_payload_iff (r : request) (found : list issue) :
  fetch r = Response 400 (ErrorBody "Invalid payload" 400 found) ↔
  method r = "GET"
  ∧ ∃ payload text j,
      payload_param r = Some payload ∧ payload ≠ ""
      ∧ decryptPayload payload = Ok text
      ∧ JSON_parse text = Some j
      ∧ websocketDataSchema j = Throw (ZodError found).
Proof.
  unfold fetch. split.
  - destruct (String.eqb_spec (method r) "GET") as [Hm|]; cbn [negb]; [|done].
    destruct (truthy (payload_param r)) eqn:Ht; cbn [negb]; [|done].
    apply truthy_Some in Ht as (payload & Hp & Hne). rewrite Hp. cbn [default from_option id].
    destruct (decryptPayload payload) as [text|e] eqn:Hd; cbn [bind].
    + destruct (JSON_parse text) as [j|] eqn:Hj; cbn [bind]; [|done].
      destruct (websocketDataSchema j) as [d'|e] eqn:Hs; cbn [bind]; [done|].
      destruct (websocketDataSchema_Throw _ _ Hs) as (found' & -> & _).
      intros [= <-]. split; [done|]. by exists payload, text, j.
    + destruct e as [?| | | | |found']; try done.
      by destruct (decryptPayload_not_ZodError payload found').
  - intros (Hm & payload & text & j & Hp & Hne & Hd & Hj & Hs).
    rewrite Hm, Hp. change (String.eqb "GET" "GET") with true. cbn [negb].
    rewrite (proj2 (truthy_Some (Some payload))) by eauto.
    cbn [negb default from_option id]. rewrite Hd. cbn [bind]. rewrite Hj. cbn [bind].
    by rewrite Hs.
Qed.

(** ** Further properties of the payload codec *)

Lemma halves_empty_first (b r : string) : halves b = Some ("", r) ↔ b = String ":" r.
Proof.
  destruct b as [|c b]; cbn [halves]; [done|].
  destruct (Ascii.eqb_spec c ":") as [->|Hc].
  - split; [by intros [= ->]|by intros [= ->]].
  - split; [|intros [= ? ?]; by destruct Hc].
    by destruct (halves b) as [[a b0]|].
Qed.

Lemma split_first_part (s : string) :
  split ":" s !! 0%nat = Some match halves s with
                              | None => s
                              | Some (a, _) => a
                              end.
Proof. rewrite split_halves. by destruct (halves s) as [[a b]|]. Qed.

Lemma split_second_part (s : string) :
  split ":" s !! 1%nat = match halves s with
                         | None => None
                         | Some (_, b) => split ":" b !! 0%nat
                         end.
Proof. rewrite split_halves. by destruct (halves s) as [[a b]|]. Qed.

(** The two parts [decryptPayload] reads are both present and not empty. *)
Lemma parts_truthy (payload : string) :
  negb (truthy (split ":" payload !! 0%nat)) || negb (truthy (split ":" payload !! 1%nat)) = false
  ↔ ∃ a b, halves payload = Some (a, b) ∧ a ≠ "" ∧ b ≠ "" ∧ ∀ r, b ≠ String ":" r.
Proof.
  rewrite split_first_part, split_second_part.
  destruct (halves payload) as [[a b]|] eqn:Hh.
  - rewrite split_first_part. rewrite orb_false_iff, !negb_false_iff, !truthy_Some. split.
    + intros [(a' & [= <-] & Ha) (b' & [= <-] & Hb)]. exists a, b. split_and!; try done.
      * intros ->. by cbn in Hb.
      * intros r ->. apply Hb. cbn [halves]. by rewrite (proj2 (Ascii.eqb_eq ":" ":")).
    + intros (a' & b' & [= <- <-] & Ha & Hb & Hc). split; [by exists a|].
      eexists. split; [reflexivity|].
      destruct (halves b) as [[a1 b1]|] eqn:Hb1; [|done].
      intros ->. apply halves_empty_first in Hb1. by destruct (Hc b1).
  - split; [|by intros (a & b & [=] & _)].
    cbn [truthy negb]. by rewrite orb_true_r.
Qed.

(** X5. [decryptPayload] reports "Payload is malformed" for exactly the wire
    strings that have no ":" at all, nothing before the first ":", or nothing
    between the first ":" and the next one (or the end of the string); no
    other failure carries this message. *)
Theorem decryptPayload_malformed_iff (payload : string) :
  decryptPayload payload = Throw (Error "Payload is malformed") ↔
  match halves payload with
  | None => True
  | Some (a, b) => a = "" ∨ b = "" ∨ ∃ r, b = String ":" r
  end.
Proof.
  pose proof (parts_truthy payload) as Hparts. unfold decryptPayload.
  destruct (_ || _) eqn:Ht.
  - split; [intros _|done]. destruct (halves payload) as [[a b]|]; [|done].
    destruct (decide (a = "")) as [|Ha]; [by left|].
    destruct (decide (b = "")) as [|Hb]; [by right; left|]. right; right.
    destruct b as [|c b]; [done|]. destruct (decide (c = ":"%char)) as [->|Hc]; [by eexists|].
    assert (true = false) as [=]. apply Hparts. exists a, (String c b).
    split_and!; try done. by intros r [= ? ?].
  - apply proj1 in Hparts. destruct (Hparts eq_refl) as (a & b & -> & Ha & Hb & Hc). split.
    + unfold importKey, bind. repeat case_match; congruence.
    + intros [?|[?|[r ?]]]; [done|done|by destruct (Hc r)].
Qed.

(** X6. Only the first two parts of the wire string are read: whatever
    follows a second ":" is ignored. *)
Theorem decryptPayload_ignores_trailing_parts (iv enc rest : string) :
  halves iv = None →
  halves enc = None →
  decryptPayload (iv +:+ ":" +:+ enc +:+ ":" +:+ rest) = decryptPayload (iv +:+ ":" +:+ enc).
Proof.
  intros Hiv Henc. unfold decryptPayload.
  assert (split ":" (iv +:+ ":" +:+ enc +:+ ":" +:+ rest) = iv :: enc :: split ":" rest) as ->.
  { rewrite split_halves, halves_app by done. by rewrite split_halves, halves_app. }
  assert (split ":" (iv +:+ ":" +:+ enc) = [iv; enc]) as ->.
  { rewrite split_halves, halves_app by done. by rewrite split_halves, Henc. }
  reflexivity.
Qed.

Lemma encryptPayload_Ok (K : string) (iv : bytes) (P : utf16) (wire : string) :
  encryptPayload K iv P = Ok wire →
  length (Buffer_from_hex K) ∈ [16; 24; 32]%nat
  ∧ wire = toString_hex iv +:+ ":"
           +:+ toString_hex (aes_cbc_encrypt (Buffer_from_hex K) iv (TextEncoder_encode P)).
Proof.
  unfold encryptPayload, importKey. case_bool_decide; cbn [bind]; [|done].
  by intros [= <-].
Qed.

(** X7. What the relay does with a wire string made by [encryptPayload],
    whatever its own key: the iv and the ciphertext reach the cipher exactly
    as the encoder produced them. Without [SIGNATURE_KEY] (unset or empty)
    decryption fails with the "not set" error, with a key that is not 16, 24
    or 32 bytes long it fails with a DataError, and otherwise the outcome is
    that of AES-CBC under the relay's key. *)
Theorem decryptPayload_of_encryptPayload (K : string) (iv : bytes) (P : utf16) (wire : string) :
  encryptPayload K iv P = Ok wire →
  iv ≠ [] →
  aes_cbc_encrypt (Buffer_from_hex K) iv (TextEncoder_encode P) ≠ [] →
  decryptPayload wire
  = if truthy SIGNATURE_KEY then
      if bool_decide (length (Buffer_from_hex (default "" SIGNATURE_KEY)) ∈ [16; 24; 32]%nat) then
        match aes_cbc_decrypt (Buffer_from_hex (default "" SIGNATURE_KEY)) iv
                (aes_cbc_encrypt (Buffer_from_hex K) iv (TextEncoder_encode P)) with
        | Some plaintext => Ok (TextDecoder_decode plaintext)
        | None => Throw OperationError
        end
      else Throw DataError
    else Throw (Error "SIGNATURE_KEY environment variable is not set").
Proof.
  intros [_ ->]%encryptPayload_Ok Hiv Hct. unfold decryptPayload. rewrite split_wire.
  cbn [lookup list_lookup]. rewrite !truthy_toString_hex by done.
  cbn [negb orb default from_option id]. rewrite !Buffer_from_toString_hex.
  destruct (truthy SIGNATURE_KEY); cbn [negb]; [|done].
  unfold importKey. case_bool_decide; cbn [bind]; [|done].
  by destruct (aes_cbc_decrypt _ _ _).
Qed.

(** X8. Without [SIGNATURE_KEY] (unset or empty) the relay upgrades nothing:
    every payload fails to decrypt, as malformed or because the key is not
    set, and every GET request that carries a payload is answered 500 and
    leaves the server as it was. *)
Theorem missing_key_never_upgrades (σ : server) (payload : string) :
  truthy SIGNATURE_KEY = false →
  payload ≠ "" →
  (decryptPayload payload = Throw (Error "Payload is malformed")
   ∨ decryptPayload payload = Throw (Error "SIGNATURE_KEY environment variable is not set"))
  ∧ step σ (HttpRequest (Request "GET" (Some payload)))
    = (σ, [Respond 500 (ErrorBody "Internal server error" 500 [])]).
Proof.
  intros Hkey Hne.
  assert (decryptPayload payload = Throw (Error "Payload is malformed")
          ∨ decryptPayload payload
            = Throw (Error "SIGNATURE_KEY environment variable is not set")) as Hd.
  { unfold decryptPayload. rewrite Hkey. destruct (_ || _); auto. }
  split; [done|]. cbn [step]. unfold fetch. cbn [method payload_param String.eqb negb].
  destruct payload as [|c payload]; [done|]. cbn [truthy negb default from_option id].
  by destruct Hd as [-> | ->].
Qed.

Lemma length_toString_hex (b : bytes) : String.length (toString_hex b) = (2 * length b)%nat.
Proof.
  induction b as [|x b IH]; [done|].
  cbn [toString_hex String.length length]. rewrite IH. clear. lia.
Qed.

Lemma length_append (s t : string) :
  String.length (s +:+ t) = (String.length s + String.length t)%nat.
Proof.
  induction s as [|c s IH]; [done|].
  change (String c s +:+ t) with (String c (s +:+ t)). cbn [String.length]. by rewrite IH.
Qed.

(** X9. [encryptPayload] fails, with a DataError, exactly when the key text
    does not decode to 16, 24 or 32 bytes (as with the empty key the example
    falls back to). When it succeeds, the wire string is the hex of the iv,
    one ":", and the hex of the ciphertext: its only ":" separates the two,
    its length is 2|iv| + 1 + 2|ciphertext|, and with a non-empty iv and
    ciphertext it is well-formed for the decoder. *)
Theorem encryptPayload_wire (K : string) (iv : bytes) (P : utf16) :
  (encryptPayload K iv P = Throw DataError ↔ length (Buffer_from_hex K) ∉ [16; 24; 32]%nat)
  ∧ encryptPayload "" iv P = Throw DataError
  ∧ ∀ wire, encryptPayload K iv P = Ok wire →
      let ct := aes_cbc_encrypt (Buffer_from_hex K) iv (TextEncoder_encode P) in
      halves wire = Some (toString_hex iv, toString_hex ct)
      ∧ String.length wire = (2 * length iv + 1 + 2 * length ct)%nat
      ∧ (iv ≠ [] → ct ≠ [] → malformed wire = false).
Proof.
  split_and!.
  - unfold encryptPayload, importKey. case_bool_decide; cbn [bind]; split; done.
  - reflexivity.
  - intros wire [_ ->]%encryptPayload_Ok ct. split_and!.
    + apply halves_app, halves_toString_hex.
    + rewrite !length_append, !length_toString_hex. cbn [String.length]. subst ct. lia.
    + intros Hiv Hct. unfold malformed.
      rewrite halves_app by apply halves_toString_hex.
      destruct iv as [|x iv]; [done|]. subst ct.
      by destruct (aes_cbc_encrypt _ _ _).
Qed.

(** ** Further properties of the schema *)

Lemma property_other (key k : string) (v : json) (l1 l2 : list (string * json)) :
  k ≠ key → property key (l1 ++ (k, v) :: l2) = property key (l1 ++ l2).
Proof.
  intros Hk. induction l1 as [|[k' v'] l1 IH]; cbn [app property].
  - by destruct (String.eqb_spec k key).
  - by rewrite IH.
Qed.

(** X10. Members of the payload object that the schema does not name are
    ignored: wherever such a member stands, the outcome of validation is the
    same as without it. *)
Theorem websocketDataSchema_ignores_unknown_keys
    (l1 l2 : list (string * json)) (k : string) (v : json) :
  k ∉ schema_keys →
  websocketDataSchema (JObject (l1 ++ (k, v) :: l2)) = websocketDataSchema (JObject (l1 ++ l2)).
Proof.
  intros Hk. unfold websocketDataSchema.
  rewrite !(property_other _ k) by (intros ->; apply Hk; unfold schema_keys; set_solver).
  reflexivity.
Qed.

Lemma field_issue_paths :
  (∀ v i, vmid_schema v = inl i → i ≠ [] ∧ ∀ x, x ∈ i → issue_path x = ["vmid"])
  ∧ (∀ v i, type_schema v = inl i → i ≠ [] ∧ ∀ x, x ∈ i → issue_path x = ["type"])
  ∧ (∀ k v i, hostname_schema k v = inl i → i ≠ [] ∧ ∀ x, x ∈ i → issue_path x = [k])
  ∧ (∀ k v i, string_schema k v = inl i → i ≠ [] ∧ ∀ x, x ∈ i → issue_path x = [k])
  ∧ (∀ v i, port_schema v = inl i → i ≠ [] ∧ ∀ x, x ∈ i → issue_path x = ["port"]).
Proof.
  assert (∀ (p : list string) (c : issue_code) (i : list issue),
            [Issue p c] = i → i ≠ [] ∧ ∀ x, x ∈ i → issue_path x = p) as Hone.
  { intros p c i <-. split; [done|]. by intros x ->%list_elem_of_singleton. }
  assert (∀ (p : list string) (c c' : issue_code) (i : list issue),
            [Issue p c; Issue p c'] = i → i ≠ [] ∧ ∀ x, x ∈ i → issue_path x = p) as Htwo.
  { intros p c c' i <-. split; [done|].
    intros x [Hx|Hx%list_elem_of_singleton]%elem_of_cons; by subst. }
  unfold vmid_schema, type_schema, hostname_schema, string_schema, port_schema.
  split_and!; intros; repeat case_match; try done;
    match goal with
    | H : inl _ = inl _ |- _ => injection H as H; first [by apply Hone in H|by apply Htwo in H]
    end.
Qed.

Lemma mentions_app (k : string) (a b : list issue) :
  mentions k (a ++ b) ↔ mentions k a ∨ mentions k b.
Proof.
  unfold mentions. split.
  - intros (i & [H|H]%elem_of_app & Hp); [left|right]; eauto.
  - intros [(i & H & Hp)|(i & H & Hp)]; exists i; (split; [apply elem_of_app; auto|done]).
Qed.

Lemma mentions_issues_of {A} (f : field A) (key k : string) :
  (∀ i, f = inl i → i ≠ [] ∧ ∀ x, x ∈ i → issue_path x = [key]) →
  mentions k (issues_of f) ↔ k = key ∧ ¬ ∃ a, f = inr a.
Proof.
  intros Hf. destruct f as [i|a]; cbn [issues_of].
  - destruct (Hf i eq_refl) as [Hne Hpath]. split.
    + intros (x & Hx & Hp). rewrite (Hpath x Hx) in Hp. split; [congruence|].
      by intros [a [=]].
    + intros [-> _]. destruct i as [|x i]; [done|].
      exists x. split; [left|apply Hpath; left].
  - split; [by intros (x & Hx%elem_of_nil & _)|].
    intros [_ H]. destruct H. by exists a.
Qed.

(** Among alternatives of the form [key = name ∧ P], one per field, the
    alternative of a given key is the one that counts. *)
Ltac choose_field :=
  first [ split; [reflexivity|assumption]
        | left; split; [reflexivity|assumption]
        | right; choose_field ].

Ltac select_field :=
  let H := fresh in
  split;
  [ intros H; destruct_or! H; destruct H as [? H]; (discriminate || exact H)
  | intros H; choose_field ].

(** X11. When the schema rejects a payload object, its issues name exactly
    the fields that are wrong, all of them and no others: [vmid] unless it is
    an integer with 0 < vmid <= 2^53 - 1, [type] unless it is qemu or lxc,
    [host] and [node] unless they are strings matching the hostname pattern,
    [ticket] and [vncticket] unless they are strings, [port] unless it is a
    string or a number. *)
Theorem websocketDataSchema_issues (members : list (string * json)) (found : list issue) :
  websocketDataSchema (JObject members) = Throw (ZodError found) →
  (mentions "vmid" found ↔
     ¬ ∃ n, property "vmid" members = Some (JNumber n) ∧ Number_isInteger n = true
            ∧ 0 < integer_value n <= MAX_SAFE_INTEGER)
  ∧ (mentions "type" found ↔
     ¬ ∃ t, property "type" members = Some (JString (guest_type_text t)))
  ∧ (mentions "host" found ↔
     ¬ ∃ s, property "host" members = Some (JString s) ∧ hostname_pattern s = true)
  ∧ (mentions "node" found ↔
     ¬ ∃ s, property "node" members = Some (JString s) ∧ hostname_pattern s = true)
  ∧ (mentions "ticket" found ↔ ¬ ∃ s, property "ticket" members = Some (JString s))
  ∧ (mentions "vncticket" found ↔ ¬ ∃ s, property "vncticket" members = Some (JString s))
  ∧ (mentions "port" found ↔
     ¬ ((∃ s, property "port" members = Some (JString s))
        ∨ (∃ n, property "port" members = Some (JNumber n)))).
Proof.
  drop_unused. destruct field_issue_paths as (P1 & P2 & P3 & P4 & P5).
  unfold websocketDataSchema; cbv zeta. intros Hfound.
  assert (found
          = issues_of (vmid_schema (property "vmid" members))
            ++ issues_of (type_schema (property "type" members))
            ++ issues_of (hostname_schema "host" (property "host" members))
            ++ issues_of (hostname_schema "node" (property "node" members))
            ++ issues_of (string_schema "ticket" (property "ticket" members))
            ++ issues_of (string_schema "vncticket" (property "vncticket" members))
            ++ issues_of (port_schema (property "port" members))) as ->.
  { revert Hfound. repeat case_match; congruence. }
  clear Hfound.
  assert (∀ k, mentions k
      (issues_of (vmid_schema (property "vmid" members))
       ++ issues_of (type_schema (property "type" members))
       ++ issues_of (hostname_schema "host" (property "host" members))
       ++ issues_of (hostname_schema "node" (property "node" members))
       ++ issues_of (string_schema "ticket" (property "ticket" members))
       ++ issues_of (string_schema "vncticket" (property "vncticket" members))
       ++ issues_of (port_schema (property "port" members)))
    ↔ (k = "vmid" ∧ ¬ ∃ a, vmid_schema (property "vmid" members) = inr a)
      ∨ (k = "type" ∧ ¬ ∃ a, type_schema (property "type" members) = inr a)
      ∨ (k = "host" ∧ ¬ ∃ a, hostname_schema "host" (property "host" members) = inr a)
      ∨ (k = "node" ∧ ¬ ∃ a, hostname_schema "node" (property "node" members) = inr a)
      ∨ (k = "ticket" ∧ ¬ ∃ a, string_schema "ticket" (property "ticket" members) = inr a)
      ∨ (k = "vncticket"
         ∧ ¬ ∃ a, string_schema "vncticket" (property "vncticket" members) = inr a)
      ∨ (k = "port" ∧ ¬ ∃ a, port_schema (property "port" members) = inr a)) as Hm.
  { intros k. rewrite !mentions_app.
    rewrite (mentions_issues_of _ "vmid") by eauto.
    rewrite (mentions_issues_of _ "type") by eauto.
    rewrite (mentions_issues_of _ "host") by eauto.
    rewrite (mentions_issues_of _ "node") by eauto.
    rewrite (mentions_issues_of _ "ticket") by eauto.
    rewrite (mentions_issues_of _ "vncticket") by eauto.
    rewrite (mentions_issues_of _ "port") by eauto. done. }
  split_and!; rewrite Hm.
  - transitivity (¬ ∃ a, vmid_schema (property "vmid" members) = inr a); [select_field|].
    apply not_iff_compat. setoid_rewrite vmid_schema_accepts. split.
    + intros (z & n & Hn & Hi & <- & Hr). by exists n.
    + intros (n & Hn & Hi & Hr). by exists (integer_value n), n.
  - transitivity (¬ ∃ a, type_schema (property "type" members) = inr a); [select_field|].
    by setoid_rewrite type_schema_accepts.
  - transitivity (¬ ∃ a, hostname_schema "host" (property "host" members) = inr a);
      [select_field|].
    by setoid_rewrite hostname_schema_accepts.
  - transitivity (¬ ∃ a, hostname_schema "node" (property "node" members) = inr a);
      [select_field|].
    by setoid_rewrite hostname_schema_accepts.
  - transitivity (¬ ∃ a, string_schema "ticket" (property "ticket" members) = inr a);
      [select_field|].
    by setoid_rewrite string_schema_accepts.
  - transitivity (¬ ∃ a, string_schema "vncticket" (property "vncticket" members) = inr a);
      [select_field|].
    by setoid_rewrite string_schema_accepts.
  - transitivity (¬ ∃ a, port_schema (property "port" members) = inr a); [select_field|].
    apply not_iff_compat. setoid_rewrite port_schema_accepts. split.
    + intros [[s|n] Hp]; eauto.
    + intros [[s Hs]|[n Hn]]; [by exists (PortString s)|by exists (PortNumber n)].
Qed.

(** X12. A descriptor serialised as the backend does is accepted exactly
    when it satisfies the schema's invariants (0 < vmid <= 2^53 - 1, host and
    node matching the hostname pattern), and then validation returns this
    very descriptor: nothing is coerced, and a port given as text stays
    text. *)
Theorem websocketDataSchema_descriptor_json (d : WebSocketData) :
  (websocketDataSchema (descriptor_json d) = Ok d ↔ validated d)
  ∧ (∀ d', websocketDataSchema (descriptor_json d) = Ok d' → d' = d).
Proof.
  destruct (integer_value_inject_Z (vmid d)) as [Hi Hv]. split.
  - rewrite websocketDataSchema_Ok_iff. unfold validated, schema_accepts, descriptor_json. split.
    + intros (members & [= <-] & (n & _ & _ & _ & Hr) & _ & [_ Hh] & [_ Hn] & _). done.
    + intros (Hr & Hh & Hn). eexists. split; [reflexivity|].
      cbn [property String.eqb Ascii.eqb Bool.eqb].
      split_and!; try done. by exists (inject_Z (vmid d)).
  - intros d' H. apply websocketDataSchema_Ok_iff in H.
    destruct H as (members & [= <-] & (n & Hn & _ & Hz & _) & Ht & [Hh _] & [Hnd _] & Htk & Hvt & Hp).
    cbn [property String.eqb Ascii.eqb Bool.eqb] in *.
    injection Hn as <-. rewrite Hv in Hz.
    injection Ht as Ht. injection Hh as Hh. injection Hnd as Hnd.
    injection Htk as Htk. injection Hvt as Hvt. injection Hp as Hp.
    destruct d, d'; cbn in *. subst.
    f_equal.
    + by destruct type0, type1.
    + by destruct port0, port1; simplify_eq.
Qed.

(** ** Further properties of the relay *)

Lemma descriptor_json_accepted (d : WebSocketData) :
  validated d → websocketDataSchema (descriptor_json d) = Ok d.
Proof.
  intros (Hr & Hh & Hn). destruct (integer_value_inject_Z (vmid d)) as [Hi Hv].
  apply websocketDataSchema_Ok_iff. eexists. split; [reflexivity|].
  cbn [property String.eqb Ascii.eqb Bool.eqb].
  split_and!; try done. by exists (inject_Z (vmid d)).
Qed.

Lemma constructWebsocketUrl_Ok (d : WebSocketData) (h : string) :
  host_parser (host d) = Some h →
  ∃ url, constructWebsocketUrl d = Ok url ∧ hostname url = h ∧ protocol url = "wss:".
Proof.
  intros Hh. unfold constructWebsocketUrl. rewrite new_URL_wss, Hh. cbn [bind].
  eexists. split; [reflexivity|]. done.
Qed.

Lemma truthy_toString_hex_app (b : bytes) (s : string) :
  b ≠ [] → truthy (Some (toString_hex b +:+ s)) = true.
Proof. by destruct b. Qed.

(** X13. End to end: a descriptor that satisfies the schema's invariants,
    serialised and encrypted by the backend under the shared 256-bit key, is
    upgraded by the relay. The new client connection carries exactly this
    descriptor, one upstream socket is created for it, still connecting, with
    the URL built from the descriptor and the authorization header built
    from its ticket, and the registry is not touched. *)
Theorem encrypted_descriptor_is_upgraded
    (σ : server) (K : string) (iv : bytes) (text : utf16) (d : WebSocketData) (h : string) :
  AES_CBC_correct →
  SIGNATURE_KEY = Some K →
  length (Buffer_from_hex K) = 32%nat →
  length iv = 16%nat →
  well_formed text →
  head text ≠ Some 0xFEFF →
  JSON_parse text = Some (descriptor_json d) →
  validated d →
  host_parser (host d) = Some h →
  ∃ wire url,
    encryptPayload K iv text = Ok wire
    ∧ constructWebsocketUrl d = Ok url ∧ hostname url = h
    ∧ step σ (HttpRequest (Request "GET" (Some wire)))
      = (Server (sockets σ)
                (<[fresh (dom (clients σ)) := Client d true]> (clients σ))
                (<[fresh (dom (upstreams σ)) := Upstream (fresh (dom (clients σ))) CONNECTING]>
                   (upstreams σ)),
         [NewWebSocket (fresh (dom (upstreams σ))) url (authorization (ticket d))]).
Proof.
  intros Haes HK Hlen Hiv Hwf Hbom Hjson Hvalid Hhost.
  destruct (Haes (Buffer_from_hex K) iv (TextEncoder_encode text) Hlen Hiv) as [Hinv Hne].
  destruct (constructWebsocketUrl_Ok d h Hhost) as (url & Hurl & Hname & _).
  unfold encryptPayload. rewrite importKey_256 by done. cbn [bind].
  eexists _, url. split_and!; [reflexivity|done|done|].
  cbn [step]. unfold fetch. cbn [method payload_param]. change (String.eqb "GET" "GET") with true.
  cbn [negb]. rewrite truthy_toString_hex_app by by destruct iv.
  cbn [negb default from_option id].
  rewrite (decryptPayload_wire K) by (done || by destruct iv).
  rewrite Hinv. cbn [bind]. rewrite TextDecoder_TextEncoder by done.
  rewrite Hjson. cbn [bind]. rewrite descriptor_json_accepted by done. cbn [bind].
  unfold websocket_open. cbn [clients sockets upstreams].
  rewrite lookup_insert_eq. cbn [data]. by rewrite Hurl.
Qed.

Lemma traffic_step (σ : server) (ws : nat) (c : client) (socket pws : nat) (u : upstream)
    (x : frame + frame) :
  clients σ !! ws = Some c →
  sockets σ !! vmid (data c) = Some socket →
  upstreams σ !! pws = Some u →
  readyState u = OPEN →
  step σ (traffic_event ws pws x) = (σ, [traffic_call (owner u) socket x]).
Proof.
  intros Hc Hs Hu Hr. destruct x as [m|m]; cbn [traffic_event traffic_call step].
  - unfold websocket_message. by rewrite Hc, Hs.
  - unfold pws_message. by rewrite Hu, Hr.
Qed.

(** X14. While a session is active, frames are relayed one for one, in the
    order they arrive and unchanged: each frame of the client becomes one
    [send] on the registered upstream socket, each frame of the upstream
    becomes one [send] on the client it was opened for, and the server state
    stays as it is (nothing is buffered). *)
Theorem frames_are_relayed_in_order
    (σ : server) (ws : nat) (c : client) (socket pws : nat) (u : upstream)
    (traffic : list (frame + frame)) :
  clients σ !! ws = Some c →
  sockets σ !! vmid (data c) = Some socket →
  upstreams σ !! pws = Some u →
  readyState u = OPEN →
  run σ (traffic_event ws pws <$> traffic) = (σ, traffic_call (owner u) socket <$> traffic).
Proof.
  intros Hc Hs Hu Hr. induction traffic as [|x traffic IH]; [done|].
  cbn [fmap list_fmap run]. rewrite (traffic_step σ ws c socket pws u) by done.
  fold (fmap (M:=list) (traffic_event ws pws)). by rewrite IH.
Qed.

(** X15. When an upstream socket that is not yet closed reports an error
    (a failed connection attempt included), the relay closes the client it
    was opened for with code 1011 and reason "Upstream websocket error"; the
    [close] handler then removes the guest's registry entry, if any, and
    closes the socket it named with the same code and reason. This is so on
    every runtime whose [close] accepts the code 1011; on one whose
    [close] throws on it, the client is closed all the same and the entry
    stays. *)
Theorem upstream_error_closes_client
    (σ : server) (pws : nat) (u : upstream) (c : client) :
  upstreams σ !! pws = Some u →
  readyState u ≠ CLOSED →
  clients σ !! owner u = Some c →
  client_open c = true →
  ∃ σ',
    step σ (UpstreamErrored pws)
    = (σ', ClientClose (owner u) 1011 "Upstream websocket error"
           :: match sockets σ !! vmid (data c) with
              | Some socket =>
                  if close_accepts 1011 "Upstream websocket error"
                  then [UpstreamClose socket 1011 "Upstream websocket error"]
                  else []
              | None => []
              end)
    ∧ sockets σ' = (if close_accepts 1011 "Upstream websocket error"
                    then delete (vmid (data c)) (sockets σ)
                    else sockets σ)
    ∧ client_open <$> clients σ' !! owner u = Some false.
Proof.
  intros Hu Hr Hc Ho. cbn [step]. unfold pws_error, ws_close. rewrite Hu.
  rewrite (client_gone_open _ _ c) by done.
  destruct (sockets σ !! vmid (data c)) as [socket|] eqn:E;
    destruct (close_accepts 1011 "Upstream websocket error");
    destruct (readyState u); try done; eexists; (split; [reflexivity|]);
    cbn [sockets clients]; rewrite lookup_insert_eq; split; try done.
  all: by rewrite delete_id.
Qed.

(** X16. A client that closes while its upstream socket is still connecting
    leaves that socket alone: with no registry entry for the guest, the
    [close] handler makes no call. When the socket opens afterwards it still
    registers itself, so the registry then names an upstream whose client
    is gone. *)
Theorem client_close_while_connecting
    (σ : server) (ws : nat) (c : client) (pws : nat) (u : upstream)
    (code : Z) (reason : string) :
  clients σ !! ws = Some c →
  client_open c = true →
  upstreams σ !! pws = Some u →
  owner u = ws →
  readyState u = CONNECTING →
  sockets σ !! vmid (data c) = None →
  run σ [ClientClosed ws code reason; UpstreamOpened pws]
  = (Server (<[vmid (data c) := pws]> (sockets σ))
            (<[ws := Client (data c) false]> (clients σ))
            (alter (λ u, Upstream (owner u) OPEN) pws (upstreams σ)),
     []).
Proof.
  intros Hc Ho Hu Hown Hr Hs. cbn [run step].
  rewrite (client_gone_open _ _ c) by done. rewrite Hs.
  unfold pws_open. cbn [upstreams clients sockets]. rewrite Hu, Hr, Hown.
  rewrite lookup_insert_eq. reflexivity.
Qed.

Lemma client_gone_calls σ ws code reason x :
  x ∈ (client_gone σ ws code reason).2 →
  ∃ p v, x = UpstreamClose p code reason ∧ sockets σ !! v = Some p.
Proof.
  unfold client_gone.
  destruct (clients σ !! ws) as [c|]; [|by intros ?%elem_of_nil].
  destruct (client_open c); [|by intros ?%elem_of_nil].
  unfold websocket_close. cbn [clients sockets upstreams]. rewrite lookup_insert_eq.
  cbn [data]. destruct (sockets σ !! vmid (data c)) as [socket|] eqn:E;
    cbn [snd]; [|by intros ?%elem_of_nil].
  destruct (close_accepts code reason); cbn [snd]; [|by intros ?%elem_of_nil].
  intros ->%list_elem_of_singleton. eauto.
Qed.

Lemma ws_close_calls σ ws code reason x :
  x ∈ (ws_close σ ws code reason).2 →
  x = ClientClose ws code reason
  ∨ ∃ p v, x = UpstreamClose p code reason ∧ sockets σ !! v = Some p.
Proof.
  unfold ws_close. pose proof (client_gone_calls σ ws code reason x) as H.
  destruct (client_gone σ ws code reason) as [σ' calls]. cbn [snd] in *.
  intros [->|Hx]%elem_of_cons; auto.
Qed.

(** What a step calls: on a client, [send] for a frame that just arrived
    from its upstream, or [close]; on an upstream, [send] for a frame that
    just arrived from a client of the guest it is registered for, [close]
    if it is in the registry, or its creation. *)
Lemma step_calls (σ : server) (e : event) (x : call) :
  x ∈ (step σ e).2 →
  (∃ status body, x = Respond status body)
  ∨ (∃ pws url header, x = NewWebSocket pws url header)
  ∨ (∃ ws code reason, x = ClientClose ws code reason)
  ∨ (∃ p v code reason, x = UpstreamClose p code reason ∧ sockets σ !! v = Some p)
  ∨ (∃ pws u m, x = ClientSend (owner u) m ∧ e = UpstreamMessage pws m
                ∧ upstreams σ !! pws = Some u)
  ∨ (∃ ws c p m, x = UpstreamSend p m ∧ e = ClientMessage ws m
                 ∧ clients σ !! ws = Some c ∧ sockets σ !! vmid (data c) = Some p).
Proof.
  destruct e as [r|ws m|ws code reason|pws|pws m|pws|pws code]; cbn [step].
  - destruct (fetch r) as [status body|d].
    + intros ->%list_elem_of_singleton. left. eauto.
    + unfold websocket_open. cbn [clients]. rewrite lookup_insert_eq. cbn [data].
      destruct (constructWebsocketUrl d); cbn [snd]; [|by intros ?%elem_of_nil].
      intros ->%list_elem_of_singleton. right; left. eauto.
  - unfold websocket_message.
    destruct (clients σ !! ws) as [c|] eqn:Hc; [|by intros ?%elem_of_nil].
    destruct (sockets σ !! vmid (data c)) as [socket|] eqn:Hs.
    + intros ->%list_elem_of_singleton. do 5 right. by exists ws, c, socket, m.
    + intros [->|(p & v & -> & Hp)]%ws_close_calls; [right; right; left; eauto|].
      do 3 right; left. by eexists _, _, _, _.
  - intros (p & v & -> & Hp)%client_gone_calls. do 3 right; left.
    by eexists _, _, _, _.
  - unfold pws_open. repeat case_match; by intros ?%elem_of_nil.
  - unfold pws_message. destruct (upstreams σ !! pws) as [u|] eqn:Hu; [|by intros ?%elem_of_nil].
    destruct (readyState u); try by intros ?%elem_of_nil.
    all: intros ->%list_elem_of_singleton; do 4 right; left; by exists pws, u, m.
  - unfold pws_error. destruct (upstreams σ !! pws) as [u|]; [|by intros ?%elem_of_nil].
    destruct (readyState u); try by intros ?%elem_of_nil.
    all: intros [->|(p & v & -> & Hp)]%ws_close_calls; [right; right; left; eauto|].
    all: do 3 right; left; by eexists _, _, _, _.
  - unfold pws_close. destruct (upstreams σ !! pws) as [u|]; [|by intros ?%elem_of_nil].
    destruct (readyState u); try by intros ?%elem_of_nil.
    all: intros [->|(p & v & -> & Hp)]%ws_close_calls; [right; right; left; eauto|].
    all: do 3 right; left; by eexists _, _, _, _.
Qed.

(** X17. The relay calls [close] on an upstream socket only if the registry
    names it at that moment. A socket that is not in the registry, because it
    is still connecting or because a later session has replaced its entry,
    is never closed by the relay. *)
Theorem only_registered_upstreams_are_closed
    (σ : server) (e : event) (p : nat) (code : Z) (reason : string) :
  UpstreamClose p code reason ∈ (step σ e).2 → ∃ v, sockets σ !! v = Some p.
Proof.
  intros H%step_calls.
  destruct H as [(? & ? & [=])|[(? & ? & ? & [=])|[(? & ? & ? & [=])|[H|[H|H]]]]].
  - destruct H as (p' & v & code' & reason' & [= -> _ _] & Hp). eauto.
  - by destruct H as (? & ? & ? & [=] & _).
  - by destruct H as (? & ? & ? & ? & [=] & _).
Qed.

Lemma client_gone_sent σ ws code reason : omap sent (client_gone σ ws code reason).2 = [].
Proof.
  unfold client_gone, websocket_close. repeat case_match; by simplify_eq.
Qed.

Lemma ws_close_sent σ ws code reason : omap sent (ws_close σ ws code reason).2 = [].
Proof.
  unfold ws_close. pose proof (client_gone_sent σ ws code reason) as H.
  by destruct (client_gone σ ws code reason).
Qed.

(** The frames a step sends: the frame that the event delivered, once, or
    none. *)
Lemma step_sent σ e : omap sent (step σ e).2 `sublist_of` option_list (arrived e).
Proof.
  destruct e as [r|ws m|ws code reason|pws|pws m|pws|pws code];
    cbn [step arrived option_list].
  - unfold websocket_open. repeat case_match; simplify_eq; by cbn.
  - unfold websocket_message. repeat case_match; try by constructor.
    rewrite ws_close_sent. apply sublist_nil_l.
  - by rewrite client_gone_sent.
  - unfold pws_open. by repeat case_match.
  - unfold pws_message. repeat case_match; cbn; try done; by constructor.
  - unfold pws_error. repeat case_match; rewrite ?ws_close_sent; by cbn.
  - unfold pws_close. repeat case_match; rewrite ?ws_close_sent; by cbn.
Qed.

Lemma run_sent σ es : omap sent (run σ es).2 `sublist_of` omap arrived es.
Proof.
  revert σ. induction es as [|e es IH]; intros σ; [done|].
  cbn [run]. pose proof (step_sent σ e) as H1. specialize (IH (step σ e).1).
  destruct (step σ e) as [σ1 calls1]. cbn [fst snd] in *.
  destruct (run σ1 es) as [σ2 calls2]. cbn [fst snd] in *.
  rewrite omap_app.
  replace (omap arrived (e :: es)) with (option_list (arrived e) ++ omap arrived es)
    by (cbn; by destruct (arrived e)).
  by apply sublist_app.
Qed.

(** X18. Frames are only ever forwarded: the relay sends a frame to a client
    only when that very frame has just arrived from the upstream socket
    opened for this client, and sends a frame to an upstream socket only when
    that very frame has just arrived from a client whose guest the registry
    maps to this socket. It never originates, repeats, alters or reorders a
    frame: over any run, the frames sent are, in their order, some of the
    frames that arrived, each sent at most once. *)
Theorem frames_are_only_forwarded (σ : server) (e : event) :
  (∀ ws m, ClientSend ws m ∈ (step σ e).2 →
     ∃ pws u, e = UpstreamMessage pws m ∧ upstreams σ !! pws = Some u ∧ owner u = ws)
  ∧ (∀ p m, UpstreamSend p m ∈ (step σ e).2 →
       ∃ ws c, e = ClientMessage ws m ∧ clients σ !! ws = Some c
               ∧ sockets σ !! vmid (data c) = Some p)
  ∧ omap sent (step σ e).2 `sublist_of` option_list (arrived e)
  ∧ ∀ es, omap sent (run σ es).2 `sublist_of` omap arrived es.
Proof.
  split_and!; [| |apply step_sent|intros es; apply run_sent].
  - intros ws m H%step_calls.
    destruct H as [(? & ? & [=])|[(? & ? & ? & [=])|[(? & ? & ? & [=])|[H|[H|H]]]]].
    + by destruct H as (? & ? & ? & ? & [=] & _).
    + destruct H as (pws & u & m' & [= -> ->] & -> & Hu). by exists pws, u.
    + by destruct H as (? & ? & ? & ? & [=] & _).
  - intros p m H%step_calls.
    destruct H as [(? & ? & [=])|[(? & ? & ? & [=])|[(? & ? & ? & [=])|[H|[H|H]]]]].
    + by destruct H as (? & ? & ? & ? & [=] & _).
    + by destruct H as (? & ? & ? & [=] & _).
    + destruct H as (ws & c & p' & m' & [= -> ->] & -> & Hc & Hs). by exists ws, c.
Qed.

Lemma fmap_owner_alter (f : upstream → upstream) (p : nat) (U : gmap nat upstream) :
  (∀ u, owner (f u) = owner u) → owner <$> alter f p U = owner <$> U.
Proof.
  intros Hf. apply map_eq. intros i. rewrite !lookup_fmap.
  destruct (decide (p = i)) as [->|Hne].
  - rewrite lookup_alter_eq. destruct (U !! i); cbn; by rewrite ?Hf.
  - by rewrite lookup_alter_ne.
Qed.

Lemma owner_closing u : owner (closing u) = owner u.
Proof. unfold closing. by destruct (readyState u). Qed.

Lemma client_gone_owners σ ws code reason :
  owner <$> upstreams (client_gone σ ws code reason).1 = owner <$> upstreams σ.
Proof.
  unfold client_gone. destruct (clients σ !! ws) as [c|]; [|done].
  destruct (client_open c); [|done].
  unfold websocket_close. cbn [clients sockets upstreams]. rewrite lookup_insert_eq.
  cbn [data]. destruct (sockets σ !! vmid (data c)); [|done].
  destruct (close_accepts code reason); [|done].
  cbn [fst upstreams]. apply fmap_owner_alter, owner_closing.
Qed.

Lemma ws_close_owners σ ws code reason :
  owner <$> upstreams (ws_close σ ws code reason).1 = owner <$> upstreams σ.
Proof.
  unfold ws_close. pose proof (client_gone_owners σ ws code reason) as H.
  by destruct (client_gone σ ws code reason).
Qed.

(** Only an upgrade creates an upstream socket; no event removes one or
    changes the client it belongs to. *)
Lemma step_owners σ e :
  (∀ r, e ≠ HttpRequest r) → owner <$> upstreams (step σ e).1 = owner <$> upstreams σ.
Proof.
  intros Hne. destruct e as [r|ws m|ws code reason|pws|pws m|pws|pws code]; cbn [step].
  - by destruct (Hne r).
  - unfold websocket_message. repeat case_match; try done. apply ws_close_owners.
  - apply client_gone_owners.
  - unfold pws_open. repeat case_match; try done. cbn [fst upstreams set_readyState].
    by apply fmap_owner_alter.
  - unfold pws_message. by repeat case_match.
  - unfold pws_error. repeat case_match; try done; apply ws_close_owners.
  - unfold pws_close. repeat case_match; try done; rewrite ws_close_owners;
      cbn [upstreams set_readyState]; by apply fmap_owner_alter.
Qed.

Lemma one_upstream_per_client_owners σ σ' :
  owner <$> upstreams σ' = owner <$> upstreams σ →
  (∀ ws, is_Some (clients σ !! ws) → is_Some (clients σ' !! ws)) →
  one_upstream_per_client σ → one_upstream_per_client σ'.
Proof.
  intros HO HC [H1 H2].
  assert (∀ p u', upstreams σ' !! p = Some u' →
            ∃ u, upstreams σ !! p = Some u ∧ owner u = owner u') as Hback.
  { intros p u' Hp.
    assert ((owner <$> upstreams σ) !! p = Some (owner u')) as H
      by by rewrite <- HO, lookup_fmap, Hp.
    apply lookup_fmap_Some in H as (u & ? & ?). eauto. }
  split.
  - intros p u' (u & Hu & <-)%Hback. eauto.
  - intros p q u1 u2 (v1 & Hv1 & <-)%Hback (v2 & Hv2 & <-)%Hback. eauto.
Qed.

Lemma step_one_upstream_per_client σ e :
  one_upstream_per_client σ → one_upstream_per_client (step σ e).1.
Proof.
  intros Hσ.
  assert ((∀ r, e ≠ HttpRequest r) → one_upstream_per_client (step σ e).1) as Hother.
  { intros Hne. apply (one_upstream_per_client_owners σ); [by apply step_owners| |done].
    intros ws [c Hc]. destruct (step_extends σ e) as [HC _].
    destruct (HC ws c Hc) as (c' & -> & _). eauto. }
  destruct e as [r|ws m|ws code reason|pws|pws m|pws|pws code]; try by apply Hother.
  clear Hother. cbn [step]. destruct (fetch r) as [status body|d]; [done|].
  destruct Hσ as [H1 H2].
  set (ws := fresh (dom (clients σ))).
  assert (clients σ !! ws = None) as Hws
    by apply not_elem_of_dom, is_fresh.
  unfold websocket_open. cbn [clients upstreams sockets]. rewrite lookup_insert_eq.
  cbn [data]. destruct (constructWebsocketUrl d) as [url|?]; cbn [fst].
  - set (pws := fresh (dom (upstreams σ))).
    assert (upstreams σ !! pws = None) as Hpws
      by apply not_elem_of_dom, is_fresh.
    split; cbn [clients upstreams].
    + intros p u [[-> <-]|[Hp Hu]]%lookup_insert_Some.
      * cbn [owner]. rewrite lookup_insert_eq. eauto.
      * destruct (H1 p u Hu) as [c Hc]. exists c.
        rewrite lookup_insert_ne; [done|]. intros E. by rewrite E, Hc in Hws.
    + intros p q u u' [[-> <-]|[Hp Hu]]%lookup_insert_Some
        [[-> <-]|[Hq Hu']]%lookup_insert_Some; cbn [owner]; try done.
      * intros E. destruct (H1 q u' Hu') as [c Hc]. by rewrite <- E, Hws in Hc.
      * intros E. destruct (H1 p u Hu) as [c Hc]. by rewrite E, Hws in Hc.
      * eauto.
  - split; cbn [clients upstreams]; [|done].
    intros p u Hu. destruct (H1 p u Hu) as [c Hc]. exists c.
    rewrite lookup_insert_ne; [done|]. intros E. by rewrite E, Hc in Hws.
Qed.

Lemma run_one_upstream_per_client σ es :
  one_upstream_per_client σ → one_upstream_per_client (run σ es).1.
Proof.
  revert σ. induction es as [|e es IH]; intros σ Hσ; [done|].
  cbn [run]. pose proof (step_one_upstream_per_client σ e Hσ) as H1.
  specialize (IH (step σ e).1 H1).
  destruct (step σ e) as [σ1 calls1]. cbn [fst] in IH. by destruct (run σ1 es).
Qed.

(** X19. Whatever events the relay has handled since it started, every
    registry entry names an upstream socket that has opened and that was
    created for a client of that guest; every upstream socket belongs to a
    client connection, and no client connection has two upstream sockets. *)
Theorem reachable_state_invariants (es : list event) :
  consistent (run initial es).1 ∧ one_upstream_per_client (run initial es).1.
Proof.
  split.
  - apply run_consistent, initial_consistent.
  - apply run_one_upstream_per_client. split; cbn; intros *; by rewrite lookup_empty.
Qed.

Lemma persists_refl σ : persists σ σ.
Proof. split; eauto 10. Qed.

Lemma persists_trans σ1 σ2 σ3 : persists σ1 σ2 → persists σ2 σ3 → persists σ1 σ3.
Proof.
  intros [C1 U1] [C2 U2]. split.
  - intros ws c H. destruct (C1 _ _ H) as (c' & H' & E' & O').
    destruct (C2 _ _ H') as (c'' & H'' & E'' & O'').
    exists c''. split_and!; [done|congruence|auto].
  - intros p u H. destruct (U1 _ _ H) as (u' & H' & E' & R' & D').
    destruct (U2 _ _ H') as (u'' & H'' & E'' & R'' & D'').
    exists u''. split_and!; [done|congruence|auto|auto].
Qed.

Lemma persists_alter_upstream σ (s : gmap Z nat) f p :
  (∀ u, upstreams σ !! p = Some u →
     owner (f u) = owner u
     ∧ (readyState u ≠ CONNECTING → readyState (f u) ≠ CONNECTING)
     ∧ (readyState u = CLOSED → readyState (f u) = CLOSED)) →
  persists σ (Server s (clients σ) (alter f p (upstreams σ))).
Proof.
  intros Hf. split; cbn [clients upstreams]; [eauto 10|].
  intros q u H. destruct (decide (p = q)) as [->|Hne].
  - exists (f u). rewrite lookup_alter_eq, H. split; [done|by apply Hf].
  - exists u. by rewrite lookup_alter_ne.
Qed.

Lemma persists_closing σ s p :
  persists σ (Server s (clients σ) (alter closing p (upstreams σ))).
Proof.
  apply persists_alter_upstream. intros u _. unfold closing.
  destruct (readyState u) eqn:E; cbn [owner readyState]; rewrite ?E; by split_and!.
Qed.

Lemma persists_client_closed σ ws c :
  clients σ !! ws = Some c →
  persists σ (Server (sockets σ) (<[ws := Client (data c) false]> (clients σ)) (upstreams σ)).
Proof.
  intros Hc. split; cbn [clients upstreams]; [|eauto 10].
  intros ws' c0 H. destruct (decide (ws = ws')) as [<-|Hne].
  - rewrite lookup_insert_eq. eexists. split; [done|]. by simplify_eq.
  - rewrite lookup_insert_ne by done. eauto.
Qed.

Lemma client_gone_persists σ ws code reason : persists σ (client_gone σ ws code reason).1.
Proof.
  unfold client_gone. destruct (clients σ !! ws) as [c|] eqn:Hc; [|apply persists_refl].
  destruct (client_open c); [|apply persists_refl].
  eapply persists_trans; [by apply persists_client_closed|].
  unfold websocket_close. cbn [clients sockets upstreams]. rewrite lookup_insert_eq.
  cbn [data]. destruct (sockets σ !! vmid (data c)); [|apply persists_refl].
  destruct (close_accepts code reason); [|apply persists_refl].
  apply (persists_closing (Server _ _ _)).
Qed.

Lemma ws_close_persists σ ws code reason : persists σ (ws_close σ ws code reason).1.
Proof.
  unfold ws_close. pose proof (client_gone_persists σ ws code reason) as H.
  by destruct (client_gone σ ws code reason).
Qed.

Lemma step_persists σ e : persists σ (step σ e).1.
Proof.
  destruct e as [r|ws m|ws code reason|pws|pws m|pws|pws code]; cbn [step].
  - destruct (fetch r) as [status body|d]; [apply persists_refl|].
    unfold websocket_open. cbn [clients upstreams sockets]. rewrite lookup_insert_eq.
    cbn [data].
    assert (∀ ws c, clients σ !! ws = Some c →
              ∃ c', <[fresh (dom (clients σ)) := Client d true]> (clients σ) !! ws = Some c'
                    ∧ data c' = data c ∧ (client_open c = false → client_open c' = false)) as HC.
    { intros ws c H. exists c. rewrite lookup_insert_ne; [done|]. intros <-.
      apply (is_fresh (dom (clients σ))), elem_of_dom. eauto. }
    destruct (constructWebsocketUrl d); (split; cbn [fst clients upstreams]; [done|]);
      [|eauto 10].
    intros p u H. exists u. rewrite lookup_insert_ne; [done|]. intros <-.
    apply (is_fresh (dom (upstreams σ))), elem_of_dom. eauto.
  - unfold websocket_message. repeat case_match; try apply persists_refl.
    apply ws_close_persists.
  - apply client_gone_persists.
  - unfold pws_open. destruct (upstreams σ !! pws) as [u|] eqn:Hu; [|apply persists_refl].
    destruct (readyState u) eqn:Hr; try apply persists_refl.
    destruct (clients σ !! owner u); [|apply persists_refl].
    cbn [fst set_readyState sockets clients upstreams].
    apply persists_alter_upstream. intros u' ?. simplify_eq. by rewrite Hr.
  - unfold pws_message. repeat case_match; apply persists_refl.
  - unfold pws_error. repeat case_match; try apply persists_refl; apply ws_close_persists.
  - unfold pws_close. repeat case_match; try apply persists_refl;
      (eapply persists_trans; [|apply ws_close_persists]);
      by apply persists_alter_upstream.
Qed.

(** X20. Connections keep their identity for as long as the relay runs:
    no sequence of events changes the descriptor of a client connection or
    the client an upstream socket belongs to, removes a connection, reopens
    a closed client or a closed upstream socket, or takes an upstream
    socket back to connecting. *)
Theorem run_persists (σ : server) (es : list event) : persists σ (run σ es).1.
Proof.
  revert σ. induction es as [|e es IH]; intros σ; [apply persists_refl|].
  cbn [run]. pose proof (step_persists σ e) as H1. specialize (IH (step σ e).1).
  destruct (step σ e) as [σ1 calls1]. cbn [fst] in *.
  destruct (run σ1 es) as [σ2 calls2]. cbn [fst] in *. by eapply persists_trans.
Qed.

(** X21. A descriptor that the schema accepted but whose host the URL
    parser rejects is still upgraded, and then the [open] handler throws
    before it creates anything: no upstream socket is opened, no call is
    made, and the registry is as before. *)
Theorem rejected_host_opens_no_upstream
    (σ : server) (r : request) (d : WebSocketData) :
  fetch r = Upgrade d →
  host_parser (host d) = None →
  ∃ σ', step σ (HttpRequest r) = (σ', [])
        ∧ clients σ' !! fresh (dom (clients σ)) = Some (Client d true)
        ∧ upstreams σ' = upstreams σ
        ∧ sockets σ' = sockets σ.
Proof.
  intros Hf Hh. cbn [step]. rewrite Hf. unfold websocket_open.
  cbn [clients]. rewrite lookup_insert_eq. cbn [data].
  unfold constructWebsocketUrl. rewrite new_URL_wss, Hh. cbn [bind].
  eexists. split; [reflexivity|]. cbn [clients upstreams sockets].
  by rewrite lookup_insert_eq.
Qed.

Lemma prefix_append (p s : string) : String.prefix p (p +:+ s) = true.
Proof.
  induction p as [|a p IH]; [by destruct s|].
  change (String a p +:+ s) with (String a (p +:+ s)). cbn [String.prefix].
  by destruct (ascii_dec a a).
Qed.

(** X22. The authorization header always begins with one of the two
    schemes, [PVEAPIToken=] or [PVEAuthCookie=]; a ticket that already
    begins with [PVEAuthCookie=] is wrapped once more; and different
    tickets give different headers. *)
Theorem authorization_scheme :
  (∀ t, String.prefix "PVEAPIToken=" (authorization t)
        = negb (String.prefix "PVEAuthCookie=" (authorization t)))
  ∧ (∀ t, authorization ("PVEAuthCookie=" +:+ t) = "PVEAuthCookie=PVEAuthCookie=" +:+ t)
  ∧ (∀ t1 t2, authorization t1 = authorization t2 → t1 = t2).
Proof.
  assert (∀ t, String.prefix "PVEAPIToken=" ("PVEAuthCookie=" +:+ t) = false) as Hno
    by done.
  assert (∀ t, String.prefix "PVEAPIToken=" t = true →
               String.prefix "PVEAuthCookie=" t = false) as Hex.
  { intros t H. apply prefix_starts_with in H as [rest ->]. done. }
  split_and!.
  - intros t. unfold authorization.
    destruct (String.prefix "PVEAPIToken=" t) eqn:E.
    + by rewrite E, Hex.
    + by rewrite Hno, prefix_append.
  - intros t. unfold authorization. by rewrite Hno.
  - intros t1 t2. unfold authorization.
    destruct (String.prefix "PVEAPIToken=" t1) eqn:E1,
             (String.prefix "PVEAPIToken=" t2) eqn:E2; try done.
    + intros ->. by rewrite Hno in E1.
    + intros <-. by rewrite Hno in E2.
    + intros H. by simplify_eq.
Qed.

(** X23. Teardown from the client side: when a client whose upstream
    socket is registered and open goes away with a code and reason that
    [close] on the upstream socket accepts, the relay closes that socket
    with the client's code and reason and removes the registry entry; when
    the socket's own "close" event follows, its listener still calls
    [close] on the client, which is gone already, and the registry stays
    without an entry for the guest. *)
Theorem client_initiated_teardown
    (σ : server) (ws : nat) (c : client) (pws : nat) (u : upstream)
    (code : Z) (reason : string) (code' : Z) :
  clients σ !! ws = Some c →
  client_open c = true →
  sockets σ !! vmid (data c) = Some pws →
  upstreams σ !! pws = Some u →
  owner u = ws →
  readyState u = OPEN →
  close_accepts code reason = true →
  run σ [ClientClosed ws code reason; UpstreamClosed pws code']
  = (Server (delete (vmid (data c)) (sockets σ))
            (<[ws := Client (data c) false]> (clients σ))
            (<[pws := Upstream ws CLOSED]> (upstreams σ)),
     [UpstreamClose pws code reason; ClientClose ws code' "Upstream websocket closed"]).
Proof.
  intros Hc Ho Hs Hu Hown Hr Ha. cbn [run step].
  assert (closing u = Upstream ws CLOSING) as Hcl by (unfold closing; by rewrite Hr, Hown).
  rewrite (client_gone_open _ _ c) by done. rewrite Hs, Ha.
  unfold pws_close. cbn [upstreams]. rewrite lookup_alter_eq, Hu.
  cbn [fmap option_fmap option_map]. rewrite Hcl. cbn [readyState owner].
  unfold ws_close, client_gone, set_readyState. cbn [clients sockets upstreams].
  rewrite lookup_insert_eq. cbn [client_open app]. do 2 f_equal.
  apply map_eq. intros i. destruct (decide (i = pws)) as [->|Hne].
  - rewrite lookup_alter_eq, lookup_alter_eq, lookup_insert_eq, Hu.
    cbn [fmap option_fmap option_map]. by rewrite Hcl.
  - by rewrite !lookup_alter_ne, lookup_insert_ne.
Qed.

End Proxxy.

(** * The model on concrete inputs *)

Abbreviation sample_step :=
  (step pad_decrypt sample_JSON_parse zod_hostname dns_host_parser unprinted (Some sample_key) unreserved_code).
Abbreviation sample_run :=
  (run pad_decrypt sample_JSON_parse zod_hostname dns_host_parser unprinted (Some sample_key) unreserved_code).
Abbreviation sample_request := (HttpRequest (Request "GET" (Some sample_wire))).

(** One session for guest 1000 whose upstream is still connecting. *)
Abbreviation connecting := (sample_run initial [sample_request]).1.

(** One session for guest 1000 with its upstream open. *)
Abbreviation active := (sample_run initial [sample_request; UpstreamOpened 0]).1.

(** A session with its upstream open, and a second one for the same guest
    whose upstream is still connecting. *)
Abbreviation second_connecting :=
  (sample_run initial [sample_request; UpstreamOpened 0; sample_request]).1.

Lemma pad_cipher_correct : AES_CBC_correct pad_encrypt pad_decrypt.
Proof.
  intros key iv plaintext _ _. unfold pad_encrypt, pad_decrypt. split.
  - rewrite reverse_app, reverse_singleton. cbn [app]. by rewrite reverse_involutive.
  - by destruct plaintext.
Qed.

(** The relay end to end, as in the scenario of the specification: upgrade,
    upstream open, a frame each way, upstream close with code 1000. *)
Example relay_scenario :
  (sample_run initial
     [sample_request; UpstreamOpened 0; ClientMessage 0 (Text "hello");
      UpstreamMessage 0 (Text "world"); UpstreamClosed 0 1000]).2
  = [NewWebSocket 0
       {| protocol := "wss:"; hostname := "pve01.example.com";
          pathname := "/api2/json/nodes/pve01/qemu/1000/vncwebsocket";
          searchParams := [("port", "5900"); ("vncticket", "vnc-ticket")] |}
       "PVEAPIToken=test";
     UpstreamSend 0 (Text "hello");
     ClientSend 0 (Text "world");
     ClientClose 0 1000 "Upstream websocket closed";
     UpstreamClose 0 1000 "Upstream websocket closed"].
Proof. vm_compute. reflexivity. Qed.

(** ** C1 *)

(** C1, counterexample. The wire string "not-a-valid-payload" is answered
    with status 500, not 400. *)
Lemma not_a_valid_payload_is_answered_500 :
  sample_step initial (HttpRequest (Request "GET" (Some "not-a-valid-payload")))
  = (initial, [Respond 500 (ErrorBody "Internal server error" 500 [])]).
Proof. vm_compute. reflexivity. Qed.

Lemma malformed_payload_rejected_with_500_witness :
  "0011:" ≠ "" ∧ malformed "0011:" = true
  ∧ sample_step active (HttpRequest (Request "GET" (Some "0011:")))
    = (active, [Respond 500 (ErrorBody "Internal server error" 500 [])]).
Proof.
  split; [discriminate|]. split; [reflexivity|].
  apply (malformed_payload_rejected_with_500 pad_decrypt sample_JSON_parse zod_hostname
           dns_host_parser unprinted (Some sample_key) unreserved_code active "0011:");
    [discriminate|reflexivity].
Defined.

(** ** C2 *)

(** C2, counterexample. A payload whose port is the text "abc" is accepted,
    although that port does not parse to a positive integer. *)
Lemma text_port_is_accepted :
  websocketDataSchema zod_hostname text_port_json
  = Ok (set_port (PortString "abc") sample_data)
  ∧ spec_invariants zod_hostname text_port_json = false.
Proof. split; vm_compute; reflexivity. Qed.

(** The payload of the tests satisfies the invariants of the specification
    and is accepted. *)
Example sample_payload_accepted :
  websocketDataSchema zod_hostname sample_json = Ok sample_data
  ∧ spec_invariants zod_hostname sample_json = true.
Proof. split; vm_compute; reflexivity. Qed.

(** ** C3 *)

(** C3, counterexample. With two sessions for guest 1000, the registry
    names the upstream socket 1 of the second session; socket 0 belongs to
    the first session. When the client of the first session closes, the
    entry is removed all the same, and socket 1 is the one that is closed. *)
Lemma stale_close_removes_newer_registration :
  sockets (sample_run initial two_sessions).1 !! 1000 = Some 1%nat
  ∧ owner <$> upstreams (sample_run initial two_sessions).1 !! 0%nat = Some 0%nat
  ∧ owner <$> upstreams (sample_run initial two_sessions).1 !! 1%nat = Some 1%nat
  ∧ sockets (sample_step (sample_run initial two_sessions).1 (ClientClosed 0 1001 "")).1
      !! 1000 = None
  ∧ (sample_step (sample_run initial two_sessions).1 (ClientClosed 0 1001 "")).2
    = [UpstreamClose 1 1001 ""].
Proof. repeat split; vm_compute; reflexivity. Qed.

Lemma close_removes_registered_upstream_witness :
  sockets (sample_step active (ClientClosed 0 1001 "")).1
  = delete (vmid (data (Client sample_data true))) (sockets active)
  ∧ (sample_step active (ClientClosed 0 1001 "")).2
    = match sockets active !! vmid (data (Client sample_data true)) with
      | Some socket => [UpstreamClose socket 1001 ""]
      | None => []
      end.
Proof.
  apply (close_removes_registered_upstream pad_decrypt sample_JSON_parse zod_hostname
           dns_host_parser unprinted (Some sample_key) unreserved_code active 0%nat (Client sample_data true));
    vm_compute; reflexivity.
Defined.

(** ** C4 *)

(** C4, counterexample. The plaintext made of the single code unit U+D800
    comes back as U+FFFD. *)
Lemma lone_surrogate_is_replaced :
  encryptPayload pad_encrypt sample_key sample_iv [0xD800]
  = Ok "000102030405060708090a0b0c0d0e0f:efbfbd01"
  ∧ decryptPayload pad_decrypt (Some sample_key) "000102030405060708090a0b0c0d0e0f:efbfbd01"
    = Ok [0xFFFD]
  ∧ TextDecoder_decode (TextEncoder_encode [0xD800]) ≠ [0xD800].
Proof. repeat split; vm_compute; (reflexivity || discriminate). Qed.

Lemma decryptPayload_encryptPayload_witness :
  ∃ wire, encryptPayload pad_encrypt sample_key sample_iv (of_ascii "sample") = Ok wire
          ∧ decryptPayload pad_decrypt (Some sample_key) wire = Ok (of_ascii "sample").
Proof.
  apply (decryptPayload_encryptPayload pad_encrypt pad_decrypt (Some sample_key) sample_key
           sample_iv (of_ascii "sample"));
    [exact pad_cipher_correct|reflexivity|reflexivity|reflexivity| |discriminate].
  vm_compute. repeat (apply wf_unit; [lia|reflexivity|reflexivity|]). apply wf_nil.
Defined.

(** ** C5 *)

(** C5, the failing input. The upstream connection of the active session
    for guest 1000 closes with code 1006, the code of a connection that was
    lost. The client is closed with 1006; [close] on the upstream socket
    refuses that code, so the [close] handler ends before [sockets.delete]
    and the entry of guest 1000 is still there afterwards, naming the closed
    socket. *)
Lemma upstream_close_1006_keeps_entry :
  ∃ σ' calls,
    sample_step active (UpstreamClosed 0 1006)
    = (σ', ClientClose (owner (Upstream 0 OPEN)) 1006 "Upstream websocket closed" :: calls)
    ∧ client_open <$> clients σ' !! owner (Upstream 0 OPEN) = Some false
    ∧ readyState <$> upstreams σ' !! 0%nat = Some CLOSED
    ∧ sockets σ' !! vmid (data (Client sample_data true)) = Some 0%nat.
Proof.
  apply (upstream_close_with_any_code pad_decrypt sample_JSON_parse zod_hostname
           dns_host_parser unprinted (Some sample_key) unreserved_code active 0%nat
           (Upstream 0 OPEN) (Client sample_data true) 1006);
    vm_compute; reflexivity.
Qed.

(** The calls of that step, and the next frame for guest 1000, which a new
    session's client sends while its own upstream is connecting: it goes
    to the closed socket. *)
Example upstream_close_1006_calls :
  (sample_step active (UpstreamClosed 0 1006)).2
  = [ClientClose 0 1006 "Upstream websocket closed"]
  ∧ (sample_run active [UpstreamClosed 0 1006; sample_request; ClientMessage 1 (Text "next")]).2
    = [ClientClose 0 1006 "Upstream websocket closed";
       NewWebSocket 1
         {| protocol := "wss:"; hostname := "pve01.example.com";
            pathname := "/api2/json/nodes/pve01/qemu/1000/vncwebsocket";
            searchParams := [("port", "5900"); ("vncticket", "vnc-ticket")] |}
         "PVEAPIToken=test";
       UpstreamSend 0 (Text "next")].
Proof. split; vm_compute; reflexivity. Qed.

(** With a code that [close] accepts, the entry is removed. *)
Lemma upstream_close_closes_client_and_unregisters_witness :
  ∃ σ' calls,
    sample_step active (UpstreamClosed 0 1000)
    = (σ', ClientClose (owner (Upstream 0 OPEN)) 1000 "Upstream websocket closed" :: calls)
    ∧ sockets σ' !! vmid (data (Client sample_data true)) = None
    ∧ client_open <$> clients σ' !! owner (Upstream 0 OPEN) = Some false.
Proof.
  apply (upstream_close_closes_client_and_unregisters pad_decrypt sample_JSON_parse
           zod_hostname dns_host_parser unprinted (Some sample_key) unreserved_code active 0%nat
           (Upstream 0 OPEN) (Client sample_data true) 1000);
    vm_compute; reflexivity.
Defined.

(** ** C6 *)

Lemma registry_last_open_wins_witness :
  ∃ σ', sample_step second_connecting (UpstreamOpened 1) = (σ', [])
    ∧ sockets σ' = <[vmid (data (Client sample_data true)) := 1%nat]> (sockets second_connecting)
    ∧ (∀ other, other ≠ 1%nat → upstreams σ' !! other = upstreams second_connecting !! other)
    ∧ clients σ' = clients second_connecting.
Proof.
  apply (registry_last_open_wins pad_decrypt sample_JSON_parse zod_hostname dns_host_parser
           unprinted (Some sample_key) unreserved_code second_connecting 1%nat (Upstream 1 CONNECTING)
           (Client sample_data true));
    vm_compute; reflexivity.
Defined.

(** The entry that registration replaces, and the state of the replaced
    socket afterwards. *)
Example registration_replaces_entry :
  sockets second_connecting !! 1000 = Some 0%nat
  ∧ sockets (sample_step second_connecting (UpstreamOpened 1)).1 !! 1000 = Some 1%nat
  ∧ readyState <$> upstreams (sample_step second_connecting (UpstreamOpened 1)).1 !! 0%nat
    = Some OPEN.
Proof. repeat split; vm_compute; reflexivity. Qed.

(** ** C7 *)



(** The URL of the tests, for a port given as a number and as text, and
    what [searchParams.get] reads back from it. *)
Example test_urls :
  constructWebsocketUrl dns_host_parser unprinted sample_data
  = Ok {| protocol := "wss:"; hostname := "pve01.example.com";
          pathname := "/api2/json/nodes/pve01/qemu/1000/vncwebsocket";
          searchParams := [("port", "5900"); ("vncticket", "vnc-ticket")] |}
  ∧ constructWebsocketUrl dns_host_parser unprinted (set_port (PortString "5900") sample_data)
    = constructWebsocketUrl dns_host_parser unprinted sample_data
  ∧ searchParams_get "port" [("port", "5900"); ("vncticket", "vnc-ticket")] = Some "5900"
  ∧ searchParams_get "vncticket" [("port", "5900"); ("vncticket", "vnc-ticket")]
    = Some "vnc-ticket".
Proof. repeat split; vm_compute; reflexivity. Qed.

(** ** C8 *)

Lemma authorization_by_prefix_witness :
  authorization "PVEAPIToken=test-token" = "PVEAPIToken=test-token"
  ∧ authorization "test-cookie-value" = "PVEAuthCookie=test-cookie-value".
Proof.
  split.
  - apply (authorization_by_prefix dns_host_parser unprinted "PVEAPIToken=test-token").
    by exists "test-token".
  - apply (authorization_by_prefix dns_host_parser unprinted "test-cookie-value").
    by intros [rest [=]].
Defined.

(** ** C9 *)

Lemma message_goes_to_registered_upstream_witness :
  (∀ socket, sockets second_connecting !! vmid (data (Client sample_data true)) = Some socket →
     sample_step second_connecting (ClientMessage 0 (Text "hello"))
     = (second_connecting, [UpstreamSend socket (Text "hello")]))
  ∧ (sample_run second_connecting [UpstreamOpened 1; ClientMessage 0 (Text "hello")]).2
    = [UpstreamSend 1 (Text "hello")].
Proof.
  apply (message_goes_to_registered_upstream pad_decrypt sample_JSON_parse zod_hostname
           dns_host_parser unprinted (Some sample_key) unreserved_code second_connecting 0%nat
           (Client sample_data true) 1%nat (Upstream 1 CONNECTING) (Client sample_data true)
           (Text "hello"));
    vm_compute; reflexivity.
Defined.

(** Before the second session registers, the frame of the first client goes
    to the first session's own upstream socket. *)
Example message_before_second_registration :
  (sample_step second_connecting (ClientMessage 0 (Text "hello"))).2
  = [UpstreamSend 0 (Text "hello")].
Proof. vm_compute. reflexivity. Qed.

(** ** C10 *)

(** C10, counterexample. The client of a connecting session sends a frame
    and is closed with 1011. The session does not end there: its upstream
    socket opens afterwards and registers under guest 1000, and the frame
    of the next session's client, sent while that session's own upstream is
    still connecting, is forwarded to it. *)
Lemma closed_session_still_registers :
  (sample_run connecting [ClientMessage 0 (Text "early")]).2
  = [ClientClose 0 1011 "Upstream websocket not found"]
  ∧ sockets (sample_run connecting [ClientMessage 0 (Text "early"); UpstreamOpened 0]).1
      !! 1000 = Some 0%nat
  ∧ readyState <$> upstreams
      (sample_run connecting [ClientMessage 0 (Text "early"); UpstreamOpened 0]).1 !! 0%nat
    = Some OPEN
  ∧ (sample_run connecting
       [ClientMessage 0 (Text "early"); UpstreamOpened 0; sample_request;
        ClientMessage 1 (Text "next")]).2
    = [ClientClose 0 1011 "Upstream websocket not found";
       NewWebSocket 1
         {| protocol := "wss:"; hostname := "pve01.example.com";
            pathname := "/api2/json/nodes/pve01/qemu/1000/vncwebsocket";
            searchParams := [("port", "5900"); ("vncticket", "vnc-ticket")] |}
         "PVEAPIToken=test";
       UpstreamSend 0 (Text "next")].
Proof. repeat split; vm_compute; reflexivity. Qed.

Lemma early_message_closes_client_witness :
  (∀ e v p, (∀ pws, e ≠ UpstreamOpened pws) →
     sockets (sample_step connecting e).1 !! v = Some p → sockets connecting !! v = Some p)
  ∧ sample_step connecting (ClientMessage 0 (Text "early"))
    = (Server (sockets connecting)
              (<[0%nat := Client (data (Client sample_data true)) false]> (clients connecting))
              (upstreams connecting),
       [ClientClose 0 1011 "Upstream websocket not found"])
  ∧ ∀ pws u, upstreams connecting !! pws = Some u → owner u = 0%nat →
      readyState u = CONNECTING →
      sample_run connecting [ClientMessage 0 (Text "early"); UpstreamOpened pws]
      = (Server (<[vmid (data (Client sample_data true)) := pws]> (sockets connecting))
                (<[0%nat := Client (data (Client sample_data true)) false]> (clients connecting))
                (alter (λ u, Upstream (owner u) OPEN) pws (upstreams connecting)),
         [ClientClose 0 1011 "Upstream websocket not found"]).
Proof.
  apply (early_message_closes_client pad_decrypt sample_JSON_parse zod_hostname
           dns_host_parser unprinted (Some sample_key) unreserved_code connecting 0%nat
           (Client sample_data true) (Text "early"));
    vm_compute; reflexivity.
Defined.

(** * Further properties on concrete inputs *)

Abbreviation sample_fetch :=
  (fetch pad_decrypt sample_JSON_parse zod_hostname (Some sample_key)).

(** ** Requests *)

(** The responses of [fetch] on the requests of the tests. *)
Example fetch_responses :
  sample_fetch (Request "POST" (Some sample_wire))
  = Response 405 (ErrorBody "Method not allowed. Supported methods: GET" 405 [])
  ∧ sample_fetch (Request "GET" None) = Response 400 (ErrorBody "Missing payload" 400 [])
  ∧ sample_fetch (Request "GET" (Some "")) = Response 400 (ErrorBody "Missing payload" 400 [])
  ∧ sample_fetch (Request "GET" (Some sample_wire)) = Upgrade sample_data.
Proof. repeat split; vm_compute; reflexivity. Qed.

Lemma missing_key_never_upgrades_witness :
  (decryptPayload pad_decrypt None sample_wire = Throw (Error "Payload is malformed")
   ∨ decryptPayload pad_decrypt None sample_wire
     = Throw (Error "SIGNATURE_KEY environment variable is not set"))
  ∧ step pad_decrypt sample_JSON_parse zod_hostname dns_host_parser unprinted None unreserved_code
      active (HttpRequest (Request "GET" (Some sample_wire)))
    = (active, [Respond 500 (ErrorBody "Internal server error" 500 [])]).
Proof.
  apply (missing_key_never_upgrades pad_decrypt sample_JSON_parse zod_hostname
           dns_host_parser unprinted None unreserved_code active sample_wire);
    [reflexivity|discriminate].
Defined.

Lemma encrypted_descriptor_is_upgraded_witness :
  ∃ wire url,
    encryptPayload pad_encrypt sample_key sample_iv (of_ascii "sample") = Ok wire
    ∧ constructWebsocketUrl dns_host_parser unprinted sample_data = Ok url
    ∧ hostname url = "pve01.example.com"
    ∧ sample_step active (HttpRequest (Request "GET" (Some wire)))
      = (Server (sockets active)
                (<[fresh (dom (clients active)) := Client sample_data true]> (clients active))
                (<[fresh (dom (upstreams active))
                   := Upstream (fresh (dom (clients active))) CONNECTING]> (upstreams active)),
         [NewWebSocket (fresh (dom (upstreams active))) url
            (authorization (ticket sample_data))]).
Proof.
  apply (encrypted_descriptor_is_upgraded pad_encrypt pad_decrypt sample_JSON_parse
           zod_hostname dns_host_parser unprinted (Some sample_key) unreserved_code active sample_key
           sample_iv (of_ascii "sample") sample_data "pve01.example.com");
    [exact pad_cipher_correct|reflexivity|reflexivity|reflexivity| |discriminate
    |reflexivity| |reflexivity].
  - vm_compute. repeat (apply wf_unit; [lia|reflexivity|reflexivity|]). apply wf_nil.
  - repeat split; vm_compute; (reflexivity || discriminate).
Defined.

Lemma rejected_host_opens_no_upstream_witness :
  ∃ σ',
    step pad_decrypt five_part_JSON_parse zod_hostname ipv4_host_parser unprinted
      (Some sample_key) unreserved_code active (HttpRequest (Request "GET" (Some sample_wire)))
    = (σ', [])
    ∧ clients σ' !! fresh (dom (clients active)) = Some (Client five_part_data true)
    ∧ upstreams σ' = upstreams active
    ∧ sockets σ' = sockets active.
Proof.
  apply (rejected_host_opens_no_upstream pad_decrypt five_part_JSON_parse zod_hostname
           ipv4_host_parser unprinted (Some sample_key) unreserved_code active
           (Request "GET" (Some sample_wire)) five_part_data);
    vm_compute; reflexivity.
Defined.

(** The host parser of that example accepts the hosts of the other ones. *)
Example ipv4_host_parser_samples :
  ipv4_host_parser "1.2.3.4.5" = None
  ∧ ipv4_host_parser "10.0.0.1" = Some "10.0.0.1"
  ∧ ipv4_host_parser "PVE01.example.com" = Some "pve01.example.com"
  ∧ zod_hostname "1.2.3.4.5" = true.
Proof. repeat split; vm_compute; reflexivity. Qed.

(** ** The payload codec *)

Lemma decryptPayload_ignores_trailing_parts_witness :
  decryptPayload pad_decrypt (Some sample_key)
    ("000102030405060708090a0b0c0d0e0f" +:+ ":" +:+ "73616d706c6501" +:+ ":" +:+ "ignored")
  = decryptPayload pad_decrypt (Some sample_key)
      ("000102030405060708090a0b0c0d0e0f" +:+ ":" +:+ "73616d706c6501").
Proof.
  apply (decryptPayload_ignores_trailing_parts pad_decrypt (Some sample_key)
           "000102030405060708090a0b0c0d0e0f" "73616d706c6501" "ignored");
    reflexivity.
Defined.

(** A wire string with a third part decrypts like the one without it. *)
Example trailing_part_ignored :
  decryptPayload pad_decrypt (Some sample_key) (sample_wire +:+ ":ignored")
  = Ok (of_ascii "sample").
Proof. vm_compute. reflexivity. Qed.

Lemma decryptPayload_of_encryptPayload_witness :
  decryptPayload pad_decrypt (Some "00ff") sample_wire
  = if truthy (Some "00ff") then
      if bool_decide (length (Buffer_from_hex (default "" (Some "00ff")))
                      ∈ [16; 24; 32]%nat)
      then match pad_decrypt (Buffer_from_hex (default "" (Some "00ff"))) sample_iv
                   (pad_encrypt (Buffer_from_hex sample_key) sample_iv
                      (TextEncoder_encode (of_ascii "sample"))) with
           | Some plaintext => Ok (TextDecoder_decode plaintext)
           | None => Throw OperationError
           end
      else Throw DataError
    else Throw (Error "SIGNATURE_KEY environment variable is not set").
Proof.
  apply (decryptPayload_of_encryptPayload pad_encrypt pad_decrypt (Some "00ff") sample_key
           sample_iv (of_ascii "sample") sample_wire);
    [vm_compute; reflexivity|discriminate|vm_compute; discriminate].
Defined.

(** A relay whose key has the wrong length rejects what the example's key
    encrypted. *)
Example short_key_is_a_DataError :
  decryptPayload pad_decrypt (Some "00ff") sample_wire = Throw DataError.
Proof. vm_compute. reflexivity. Qed.

(** ** The schema *)

Lemma websocketDataSchema_ignores_unknown_keys_witness :
  websocketDataSchema zod_hostname
    (JObject ([("vmid", JNumber (inject_Z 1000)); ("type", JString "qemu")]
              ++ ("upid", JString "x")
              :: [("host", JString "pve01.example.com"); ("node", JString "pve01");
                  ("ticket", JString "PVEAPIToken=test");
                  ("vncticket", JString "vnc-ticket");
                  ("port", JNumber (inject_Z 5900))]))
  = websocketDataSchema zod_hostname
      (JObject ([("vmid", JNumber (inject_Z 1000)); ("type", JString "qemu")]
                ++ [("host", JString "pve01.example.com"); ("node", JString "pve01");
                    ("ticket", JString "PVEAPIToken=test");
                    ("vncticket", JString "vnc-ticket");
                    ("port", JNumber (inject_Z 5900))])).
Proof.
  apply (websocketDataSchema_ignores_unknown_keys zod_hostname
           [("vmid", JNumber (inject_Z 1000)); ("type", JString "qemu")]
           [("host", JString "pve01.example.com"); ("node", JString "pve01");
            ("ticket", JString "PVEAPIToken=test"); ("vncticket", JString "vnc-ticket");
            ("port", JNumber (inject_Z 5900))]
           "upid" (JString "x")).
  unfold schema_keys. intros H.
  repeat (apply elem_of_cons in H as [H|H]; [discriminate H|]).
  by apply elem_of_nil in H.
Defined.

Lemma websocketDataSchema_issues_witness :
  ∃ found,
    websocketDataSchema zod_hostname
      (JObject [("vmid", JNumber (inject_Z 0)); ("type", JString "qemu");
                ("host", JString "-pve"); ("ticket", JString "t")])
    = Throw (ZodError found)
    ∧ mentions "vmid" found ∧ ¬ mentions "type" found ∧ mentions "host" found
    ∧ mentions "node" found ∧ ¬ mentions "ticket" found
    ∧ mentions "vncticket" found ∧ mentions "port" found.
Proof.
  eexists. split; [vm_compute; reflexivity|].
  pose proof (websocketDataSchema_issues zod_hostname
                [("vmid", JNumber (inject_Z 0)); ("type", JString "qemu");
                 ("host", JString "-pve"); ("ticket", JString "t")] _ eq_refl)
    as (Hvmid & Htype & Hhost & Hnode & Hticket & Hvnc & Hport).
  split_and!.
  - apply Hvmid. intros (n & Hp & _ & H & _). vm_compute in Hp.
    injection Hp as <-. vm_compute in H. discriminate H.
  - rewrite Htype. intros H. apply H. by exists qemu.
  - apply Hhost. intros (s & Hp & H). vm_compute in Hp.
    injection Hp as <-. vm_compute in H. discriminate H.
  - apply Hnode. intros (s & Hp & _). vm_compute in Hp. discriminate Hp.
  - rewrite Hticket. intros H. apply H. by exists "t".
  - apply Hvnc. intros (s & Hp). vm_compute in Hp. discriminate Hp.
  - apply Hport. intros [(s & Hp)|(n & Hp)]; vm_compute in Hp; discriminate Hp.
Defined.

(** ** The relay *)

Lemma frames_are_relayed_in_order_witness :
  sample_run active
    (traffic_event 0 0 <$> [inl (Text "a"); inr (Text "b"); inr (Text "c"); inl (Text "d")])
  = (active,
     traffic_call (owner (Upstream 0 OPEN)) 0
       <$> [inl (Text "a"); inr (Text "b"); inr (Text "c"); inl (Text "d")]).
Proof.
  apply (frames_are_relayed_in_order pad_decrypt sample_JSON_parse zod_hostname
           dns_host_parser unprinted (Some sample_key) unreserved_code active 0%nat
           (Client sample_data true) 0%nat 0%nat (Upstream 0 OPEN));
    vm_compute; reflexivity.
Defined.

Lemma upstream_error_closes_client_witness :
  ∃ σ',
    sample_step connecting (UpstreamErrored 0)
    = (σ', ClientClose (owner (Upstream 0 CONNECTING)) 1011 "Upstream websocket error"
           :: match sockets connecting !! vmid (data (Client sample_data true)) with
              | Some socket => [UpstreamClose socket 1011 "Upstream websocket error"]
              | None => []
              end)
    ∧ sockets σ' = delete (vmid (data (Client sample_data true))) (sockets connecting)
    ∧ client_open <$> clients σ' !! owner (Upstream 0 CONNECTING) = Some false.
Proof.
  apply (upstream_error_closes_client pad_decrypt sample_JSON_parse zod_hostname
           dns_host_parser unprinted (Some sample_key) unreserved_code connecting 0%nat
           (Upstream 0 CONNECTING) (Client sample_data true));
    [vm_compute; reflexivity|discriminate|vm_compute; reflexivity|reflexivity].
Defined.

(** An error of an open, registered upstream socket closes both ends. *)
Example upstream_error_when_active :
  (sample_step active (UpstreamErrored 0)).2
  = [ClientClose 0 1011 "Upstream websocket error";
     UpstreamClose 0 1011 "Upstream websocket error"].
Proof. vm_compute. reflexivity. Qed.

Lemma client_close_while_connecting_witness :
  sample_run connecting [ClientClosed 0 1001 ""; UpstreamOpened 0]
  = (Server (<[vmid (data (Client sample_data true)) := 0%nat]> (sockets connecting))
            (<[0%nat := Client (data (Client sample_data true)) false]> (clients connecting))
            (alter (λ u, Upstream (owner u) OPEN) 0%nat (upstreams connecting)),
     []).
Proof.
  apply (client_close_while_connecting pad_decrypt sample_JSON_parse zod_hostname
           dns_host_parser unprinted (Some sample_key) unreserved_code connecting 0%nat
           (Client sample_data true) 0%nat (Upstream 0 CONNECTING) 1001 "");
    vm_compute; reflexivity.
Defined.

Lemma only_registered_upstreams_are_closed_witness :
  ∃ v, sockets active !! v = Some 0%nat.
Proof.
  apply (only_registered_upstreams_are_closed pad_decrypt sample_JSON_parse zod_hostname
           dns_host_parser unprinted (Some sample_key) unreserved_code active (ClientClosed 0 1001 "")
           0%nat 1001 "").
  assert ((sample_step active (ClientClosed 0 1001 "")).2 = [UpstreamClose 0 1001 ""]) as ->
    by (vm_compute; reflexivity).
  apply elem_of_cons. by left.
Defined.

Lemma client_initiated_teardown_witness :
  sample_run active [ClientClosed 0 1000 ""; UpstreamClosed 0 1000]
  = (Server (delete (vmid (data (Client sample_data true))) (sockets active))
            (<[0%nat := Client (data (Client sample_data true)) false]> (clients active))
            (<[0%nat := Upstream 0 CLOSED]> (upstreams active)),
     [UpstreamClose 0 1000 ""; ClientClose 0 1000 "Upstream websocket closed"]).
Proof.
  apply (client_initiated_teardown pad_decrypt sample_JSON_parse zod_hostname
           dns_host_parser unprinted (Some sample_key) unreserved_code active 0%nat
           (Client sample_data true) 0%nat (Upstream 0 OPEN) 1000 "" 1000);
    vm_compute; reflexivity.
Defined.
